(** * check_mail_loop: the IMAP retrieval loop of the mail round-trip probe

    A shallow embedding of [src/check_mail_loop.py]: the header parser, the
    mailbox searcher [imap_search_server], the retry scheduler
    [imap_retrieve_mail] and the final status mapping of [main].

    Conventions.
    - A byte string is a [string], an [ascii] being the byte of the same
      number.  Python text ([str]) is modelled by the byte string of its
      UTF-8 encoding: [bytes.decode] checks that the bytes are well-formed
      UTF-8, raises [UnicodeDecodeError] when they are not, and returns them
      otherwise.  The operations on text are written on that encoding:
      [split] and [startswith] with their ASCII arguments cut at the same
      places on the encoding as on the code points, and [splitlines] and
      [strip] know the encodings of the line boundaries and of the
      whitespace beyond ASCII.
    - The IMAP session is an abstract server state with one transition per
      [imaplib] method the program calls; the answers of [select], [search]
      and [fetch] are the Python values [imaplib] hands back.  A computation
      threads the server state, emits the list of calls it made, and either
      returns a value or raises a Python exception.
    - [debug(...)] only prints; the calls inside the two IMAP functions are
      left out, the one in [main] is kept.
    - The exceptions modelled are those of the program's own statements,
      indexing, [int(...)], [.split()] and [.decode()] on an answer, and
      those of [time.sleep], which refuses a duration that is too long.
    - Outside the model: argument parsing, the SMTP send, connecting and
      logging in to the IMAP server, and the errors [imaplib] raises by
      itself. *)

From Stdlib Require Import List String Ascii ZArith Bool Lia.
Import ListNotations.

Open Scope string_scope.
Open Scope Z_scope.

(** ** Python string primitives *)

Module Py.

Definition code (c : ascii) : N := N_of_ascii c.

Definition bytes (l : list N) : string :=
  fold_right (fun n s => String (ascii_of_N n) s) "" l.

(** The whitespace of [str.isspace] beyond ASCII, in UTF-8: U+0085 and
    U+00A0; U+1680, U+2000 to U+200A, U+2028, U+2029, U+202F, U+205F and
    U+3000. *)
Definition SPACES2 : list string := [bytes [194; 133]; bytes [194; 160]]%N.

Definition SPACES3 : list string :=
  [bytes [225; 154; 128]; bytes [226; 128; 128]; bytes [226; 128; 129];
   bytes [226; 128; 130]; bytes [226; 128; 131]; bytes [226; 128; 132];
   bytes [226; 128; 133]; bytes [226; 128; 134]; bytes [226; 128; 135];
   bytes [226; 128; 136]; bytes [226; 128; 137]; bytes [226; 128; 138];
   bytes [226; 128; 168]; bytes [226; 128; 169]; bytes [226; 128; 175];
   bytes [226; 129; 159]; bytes [227; 128; 128]]%N.

(** The number of bytes of the whitespace character of [str.isspace] at the
    head of [s], 0 when [s] begins with none: the ASCII ones are U+0009 to
    U+000D and U+001C to U+0020. *)
Definition space_len (s : string) : nat :=
  match s with
  | EmptyString => 0
  | String c _ =>
      let n := code c in
      if ((9 <=? n) && (n <=? 13) || (28 <=? n) && (n <=? 32))%N then 1
      else if existsb (fun p => prefix p s) SPACES2 then 2
      else if existsb (fun p => prefix p s) SPACES3 then 3
      else 0
  end%nat.

(** The number of bytes of the line boundary of [str.splitlines] at the
    head of [s], 0 when [s] begins with none: CR LF, LF, VT, FF, CR, FS, GS,
    RS, and in UTF-8 NEL (U+0085), LS (U+2028) and PS (U+2029). *)
Definition break_len (s : string) : nat :=
  match s with
  | EmptyString => 0
  | String c s' =>
      let n := code c in
      if (n =? 13)%N then
        match s' with
        | String c' _ => if (code c' =? 10)%N then 2 else 1
        | EmptyString => 1
        end
      else if ((10 <=? n) && (n <=? 12) || (28 <=? n) && (n <=? 30))%N then 1
      else if prefix (bytes [194; 133]%N) s then 2
      else if prefix (bytes [226; 128; 168]%N) s
              || prefix (bytes [226; 128; 169]%N) s then 3
      else 0
  end%nat.

(** Whitespace of [bytes.split()] and of [int(bytes)]. *)
Definition is_bspace (c : ascii) : bool :=
  let n := code c in
  ((9 <=? n) && (n <=? 13) || (n =? 32))%N.

Definition is_digit (c : ascii) : bool :=
  let n := code c in ((48 <=? n) && (n <=? 57))%N.

(** [s.startswith(p)] *)
Definition startswith (s p : string) : bool := prefix p s.

(** [p in s] *)
Fixpoint contains (p s : string) : bool :=
  match s with
  | EmptyString => prefix p s
  | String _ s' => prefix p s || contains p s'
  end.

(** [s.split(sep)] for a non-empty [sep]: cut at each occurrence of [sep],
    scanning from the left; [skip] counts the characters of a matched
    separator that are still to be dropped, [cur] is the piece read so far. *)
Fixpoint split_go (sep : string) (skip : nat) (cur s : string) : list string :=
  match s with
  | EmptyString => [cur]
  | String c s' =>
      match skip with
      | S k => split_go sep k cur s'
      | O =>
          if prefix sep s
          then cur :: split_go sep (Nat.pred (length sep)) "" s'
          else split_go sep 0 (cur ++ String c "") s'
      end
  end.

Definition split (s sep : string) : list string := split_go sep 0 "" s.

(** [sep.join(l)] *)
Fixpoint join (sep : string) (l : list string) : string :=
  match l with
  | [] => ""
  | [x] => x
  | x :: rest => x ++ sep ++ join sep rest
  end.

(** [s.splitlines()]: [skip] counts the bytes of a boundary still to be
    dropped, [opened] tells whether a line has been started since the last
    boundary (a trailing boundary opens no empty line). *)
Fixpoint lines_go (skip : nat) (cur : string) (opened : bool) (s : string)
  : list string :=
  match s with
  | EmptyString => if opened then [cur] else []
  | String c s' =>
      match skip with
      | S k => lines_go k cur opened s'
      | O =>
          match break_len s with
          | S k => cur :: lines_go k "" false s'
          | O => lines_go 0 (cur ++ String c "") true s'
          end
      end
  end.

Definition splitlines (s : string) : list string := lines_go 0 "" false s.

(** [s.strip()]: the whitespace characters at both ends are dropped. *)
Fixpoint lstrip_go (skip : nat) (s : string) : string :=
  match s with
  | EmptyString => s
  | String _ s' =>
      match skip with
      | S k => lstrip_go k s'
      | O =>
          match space_len s with
          | S k => lstrip_go k s'
          | O => s
          end
      end
  end.

Definition lstrip (s : string) : string := lstrip_go 0 s.

(** [s] is made of whitespace characters only. *)
Fixpoint all_space_go (skip : nat) (s : string) : bool :=
  match s with
  | EmptyString => match skip with O => true | S _ => false end
  | String _ s' =>
      match skip with
      | S k => all_space_go k s'
      | O =>
          match space_len s with
          | S k => all_space_go k s'
          | O => false
          end
      end
  end.

Fixpoint rstrip (s : string) : string :=
  match s with
  | EmptyString => ""
  | String c s' => if all_space_go 0 s then "" else String c (rstrip s')
  end.

Definition strip (s : string) : string := rstrip (lstrip s).

(** [b.split()] on a byte string: the maximal runs of non-whitespace. *)
Fixpoint words_go (cur : string) (s : string) : list string :=
  match s with
  | EmptyString => match cur with EmptyString => [] | _ => [cur] end
  | String c s' =>
      if is_bspace c
      then match cur with
           | EmptyString => words_go "" s'
           | _ => cur :: words_go "" s'
           end
      else words_go (cur ++ String c "") s'
  end.

Definition split_ws (s : string) : list string := words_go "" s.

(** [int(b)] on a byte string, base ten: optional surrounding whitespace,
    optional sign, digits with single underscores between them, and no more
    digits than the interpreter allows.  [None] stands for [ValueError]. *)
Fixpoint digits_go (acc : Z) (after_digit : bool) (s : string) : option Z :=
  match s with
  | EmptyString => if after_digit then Some acc else None
  | String c s' =>
      if is_digit c
      then digits_go (10 * acc + Z.of_N (code c - 48)) true s'
      else if ((code c =? 95)%N && after_digit)
           then digits_go acc false s'
           else None
  end.

Fixpoint bstrip_l (s : string) : string :=
  match s with
  | String c s' => if is_bspace c then bstrip_l s' else s
  | EmptyString => s
  end.

Fixpoint bstrip_r (s : string) : string :=
  match s with
  | EmptyString => ""
  | String c s' =>
      match bstrip_r s' with
      | EmptyString => if is_bspace c then "" else String c ""
      | r => String c r
      end
  end.

(** The interpreter refuses a numeral of more digits than this (the default
    of [sys.set_int_max_str_digits], Python 3.11 and later). *)
Definition MAX_STR_DIGITS : N := 4300.

Fixpoint count_digits (s : string) : N :=
  match s with
  | EmptyString => 0
  | String c s' => ((if is_digit c then 1 else 0) + count_digits s')%N
  end.

Definition int (b : string) : option Z :=
  if (MAX_STR_DIGITS <? count_digits b)%N then None
  else
    match bstrip_r (bstrip_l b) with
    | String c r =>
        if (code c =? 43)%N then digits_go 0 false r
        else if (code c =? 45)%N then option_map Z.opp (digits_go 0 false r)
        else digits_go 0 false (String c r)
    | EmptyString => None
    end.

(** Well-formed UTF-8, as the strict decoder of [bytes.decode] accepts it:
    one byte below 128; a lead byte C2..DF, E0..EF or F0..F4 with its one,
    two or three continuation bytes 80..BF, the first of them further
    bounded after E0, ED, F0 and F4 (no overlong form, no surrogate, nothing
    above U+10FFFF). *)
Definition is_cont (n : N) : bool := ((128 <=? n) && (n <=? 191))%N.

Fixpoint valid_utf8 (s : string) : bool :=
  match s with
  | EmptyString => true
  | String b0 r0 =>
      let n0 := code b0 in
      if (n0 <? 128)%N then valid_utf8 r0
      else
        match r0 with
        | EmptyString => false
        | String b1 r1 =>
            let n1 := code b1 in
            if ((194 <=? n0) && (n0 <=? 223))%N
            then is_cont n1 && valid_utf8 r1
            else
              match r1 with
              | EmptyString => false
              | String b2 r2 =>
                  let n2 := code b2 in
                  if ((224 <=? n0) && (n0 <=? 239))%N then
                    (if (n0 =? 224)%N then ((160 <=? n1) && (n1 <=? 191))%N
                     else if (n0 =? 237)%N then ((128 <=? n1) && (n1 <=? 159))%N
                     else is_cont n1)
                    && is_cont n2 && valid_utf8 r2
                  else
                    match r2 with
                    | EmptyString => false
                    | String b3 r3 =>
                        let n3 := code b3 in
                        if ((240 <=? n0) && (n0 <=? 244))%N then
                          (if (n0 =? 240)%N
                           then ((144 <=? n1) && (n1 <=? 191))%N
                           else if (n0 =? 244)%N
                                then ((128 <=? n1) && (n1 <=? 143))%N
                                else is_cont n1)
                          && is_cont n2 && is_cont n3 && valid_utf8 r3
                        else false
                    end
              end
        end
  end.

End Py.

(** ** Outcomes, exceptions and the calls made on the session *)

(** [class MailFound(Enum)] *)
Inductive MailFound : Type :=
| UNDEFINED
| FOUND
| FOUND_IN_SPAM
| NOT_FOUND.

Definition MailFound_eqb (a b : MailFound) : bool :=
  match a, b with
  | UNDEFINED, UNDEFINED | FOUND, FOUND
  | FOUND_IN_SPAM, FOUND_IN_SPAM | NOT_FOUND, NOT_FOUND => true
  | _, _ => false
  end.

(** The Python exceptions the modelled statements raise. *)
Inductive exn : Type :=
| IndexError       (* [l[i]] out of range *)
| TypeError        (* [int(None)], [None[1]] *)
| ValueError       (* [int(b)] on a non-numeral *)
| AttributeError   (* [None.split()], [n.decode()] on an integer *)
| UnicodeDecodeError   (* [b.decode()] on bytes that are not UTF-8 *)
| OverflowError    (* [time.sleep(n)], [n] seconds not fitting the clock *)
| OSError.         (* [time.sleep(n)] refused by the system *)

Inductive result (A : Type) : Type :=
| Returned (a : A)
| Raised (e : exn).
Arguments Returned {A} a.
Arguments Raised {A} e.

(** One constructor per [imaplib] method called on the session, and one for
    [time.sleep]; a call is listed whether it returns or raises. *)
Inductive call : Type :=
| CSelect (mailbox : string)
| CSearch
| CFetch (num : string)
| CStore (num : string)     (* [store(num, '+FLAGS', '\Deleted')] *)
| CExpunge
| CClose
| CLogout
| CSleep (secs : Z).

(** An element of the data of a fetch answer: [None], a byte string, or a
    pair of byte strings (the envelope of a message part and its data). *)
Inductive part : Type :=
| PNone
| PBytes (b : string)
| PPair (envelope payload : string).

(** What [p[1]] gives for such an element: a byte string (the second of a
    pair) or an integer (the second byte of a byte string). *)
Inductive field : Type :=
| FBytes (b : string)
| FInt (n : N).

(** The session and the clock, as transitions of a server state [S].
    [select] and [search] answer [(typ, data)] with [data] a list of byte
    strings or [None]; [fetch] answers [(typ, data_mail)]; [sleep] returns
    or raises, as the clock of the system decides for the duration. *)
Record imap (S : Type) : Type := {
  select : string -> S -> (string * list (option string)) * S;
  search : S -> (string * list (option string)) * S;
  fetch : string -> S -> (string * list part) * S;
  store : string -> S -> S;
  expunge : S -> S;
  close : S -> S;
  logout : S -> S;
  sleep : Z -> S -> result unit * S
}.
Arguments select {S}.
Arguments search {S}.
Arguments fetch {S}.
Arguments store {S}.
Arguments expunge {S}.
Arguments close {S}.
Arguments logout {S}.
Arguments sleep {S}.

(** ** The monad of the client: server state, emitted calls, exceptions *)

Record out (S A : Type) : Type := Out {
  res : result A;
  srv : S;
  calls : list call
}.
Arguments Out {S A}.
Arguments res {S A}.
Arguments srv {S A}.
Arguments calls {S A}.

Definition M (S A : Type) : Type := S -> out S A.

Definition ret {S A} (a : A) : M S A := fun s => Out (Returned a) s [].

Definition raise {S A} (e : exn) : M S A := fun s => Out (Raised e) s [].

Definition bind {S A B} (m : M S A) (f : A -> M S B) : M S B :=
  fun s =>
    let o := m s in
    match res o with
    | Raised e => Out (Raised e) (srv o) (calls o)
    | Returned a =>
        let o' := f a (srv o) in
        Out (res o') (srv o') (calls o ++ calls o')
    end.

(** The outcome [o] with the calls [pre] made before it. *)
Definition prepend {S A} (pre : list call) (o : out S A) : out S A :=
  Out (res o) (srv o) (pre ++ calls o).

Definition lift {S A} (r : result A) : M S A :=
  match r with
  | Returned a => ret a
  | Raised e => raise e
  end.

Notation "x <- m ;; k" := (bind m (fun x => k))
  (at level 61, m at next level, right associativity).
Notation "m ;;; k" := (bind m (fun _ => k))
  (at level 61, right associativity).

(** [if flag: m] *)
Definition when {S} (flag : bool) (m : M S unit) : M S unit :=
  if flag then m else ret tt.

(** [l[0]] *)
Definition item0 {A} (l : list A) : result A :=
  match l with
  | x :: _ => Returned x
  | [] => Raised IndexError
  end.

(** [l[1]] *)
Definition item1 {A} (l : list A) : result A :=
  match nth_error l 1 with
  | Some x => Returned x
  | None => Raised IndexError
  end.

(** [int(x)] for [x] a byte string or [None] *)
Definition int_of (x : option string) : result Z :=
  match x with
  | None => Raised TypeError
  | Some b =>
      match Py.int b with
      | Some n => Returned n
      | None => Raised ValueError
      end
  end.

(** [x.split()] for [x] a byte string or [None] *)
Definition split_of (x : option string) : result (list string) :=
  match x with
  | None => Raised AttributeError
  | Some b => Returned (Py.split_ws b)
  end.

(** [p[1]] for an element [p] of [data_mail] *)
Definition sub1 (p : part) : result field :=
  match p with
  | PNone => Raised TypeError
  | PBytes (String _ (String c _)) => Returned (FInt (Py.code c))
  | PBytes _ => Raised IndexError
  | PPair _ payload => Returned (FBytes payload)
  end.

(** [b.decode()] and [b.decode('utf-8')] *)
Definition decode (b : string) : result string :=
  if Py.valid_utf8 b then Returned b else Raised UnicodeDecodeError.

(** Sequencing of statements that can raise, outside the session. *)
Definition and_then {A B} (r : result A) (f : A -> result B) : result B :=
  match r with
  | Returned a => f a
  | Raised e => Raised e
  end.

(** ** The program *)

(** Name of the custom header, and the separator the parser splits on. *)
Definition HEADER_NAME : string := "X-Icinga-Test-Id".
Definition HEADER_SEP : string := "X-Icinga-Test-Id: ".

Definition CRLF : string := String "013" (String "010" "").
Definition CRLF2 : string := CRLF ++ CRLF.

(** [class Email] of [imap_search_server]: the decoded text and its header
    block, the part before the first blank line.  [_data.decode()] raises
    [AttributeError] on an integer and [UnicodeDecodeError] on bytes that
    are not UTF-8. *)
Record Email : Type := {
  data : string;
  header : string
}.

Definition Email_init (_data : field) : result Email :=
  match _data with
  | FInt _ => Raised AttributeError
  | FBytes b =>
      and_then (decode b) (fun data =>
      Returned {| data := data;
                  header := Py.join CRLF2 (firstn 1 (Py.split data CRLF2)) |})
  end.

(** [email = Email(data_mail[0][1])] *)
Definition mail_of (data_mail : list part) : result Email :=
  and_then (item0 data_mail) (fun p =>
  and_then (sub1 p) (fun _data =>
  Email_init _data)).

(** The loop [for line in email.header.splitlines()], threading [token]. *)
Fixpoint header_loop (lines : list string) (token : string) : result string :=
  match lines with
  | [] => Returned token
  | line :: rest =>
      if Py.startswith line HEADER_NAME
      then match item1 (Py.split line HEADER_SEP) with
           | Returned x => header_loop rest (Py.strip x)
           | Raised e => Raised e
           end
      else header_loop rest token
  end.

Definition header_lines (email : Email) : list string :=
  Py.splitlines (header email).

(** From the fetch answer to the running token: the [Email] object and the
    loop over the lines of its header block. *)
Definition read_token (data_mail : list part) (token : string)
  : result string :=
  and_then (mail_of data_mail) (fun email =>
  header_loop (header_lines email) token).

Definition no_name (line : string) : bool :=
  negb (Py.startswith line HEADER_NAME).

(** No line of the header block, as [splitlines] cuts it, starts with the
    sixteen characters of the header name. *)
Definition no_name_line (email : Email) : bool :=
  forallb no_name (header_lines email).

(** How one pass through the body of [for num in ...] ends: at the end of
    the body, or at [break]; both carry the loop variables. *)
Inductive ctl : Type :=
| Continue (token_found : MailFound) (token : string)
| Break (token_found : MailFound) (token : string).

Definition found_of (c : ctl) : MailFound :=
  match c with
  | Continue token_found _ | Break token_found _ => token_found
  end.

Inductive action : Type :=
| ASleep (secs : Z)
| AScan (mailbox : string).

Section Client.

Variable S : Type.
Variable server : imap S.

Definition do_select (mailbox : string) : M S (string * list (option string)) :=
  fun s => let (r, s') := select server mailbox s in
           Out (Returned r) s' [CSelect mailbox].

Definition do_search : M S (string * list (option string)) :=
  fun s => let (r, s') := search server s in Out (Returned r) s' [CSearch].

Definition do_fetch (num : string) : M S (string * list part) :=
  fun s => let (r, s') := fetch server num s in Out (Returned r) s' [CFetch num].

Definition do_store (num : string) : M S unit :=
  fun s => Out (Returned tt) (store server num s) [CStore num].

Definition do_expunge : M S unit :=
  fun s => Out (Returned tt) (expunge server s) [CExpunge].

Definition do_close : M S unit :=
  fun s => Out (Returned tt) (close server s) [CClose].

Definition do_logout : M S unit :=
  fun s => Out (Returned tt) (logout server s) [CLogout].

Definition do_sleep (secs : Z) : M S unit :=
  fun s => let (r, s') := sleep server secs s in Out r s' [CSleep secs].

(** *** [imap_search_server] *)

Section Search.

Variable mailbox : string.
Variable expected_token : string.
Variable cleanup_flag : bool.

(** The body of [for num in data_mlist[0].split()]. *)
Definition loop_body (num : string) (token_found : MailFound) (token : string)
  : M S ctl :=
  num_str <- lift (decode num) ;;
  c <- (if MailFound_eqb token_found NOT_FOUND then
          answer <- do_fetch num_str ;;
          let data_mail := snd answer in
          token <- lift (read_token data_mail token) ;;
          if (token =? expected_token)%string then
            ret (Break (if (mailbox =? "INBOX")%string
                        then FOUND else FOUND_IN_SPAM) token)
          else ret (Continue token_found token)
        else ret (Continue token_found token)) ;;
  match c with
  | Break _ _ => ret c
  | Continue _ _ => when cleanup_flag (do_store num) ;;; ret c
  end.

Fixpoint scan_loop (nums : list string) (token_found : MailFound)
  (token : string) : M S ctl :=
  match nums with
  | [] => ret (Continue token_found token)
  | num :: rest =>
      c <- loop_body num token_found token ;;
      match c with
      | Break _ _ => ret c
      | Continue token_found token => scan_loop rest token_found token
      end
  end.

Definition imap_search_server : M S MailFound :=
  let token_found := NOT_FOUND in
  let token := "" in
  sel <- do_select mailbox ;;
  num_msg_in_mbox <- lift (item0 (snd sel)) ;;
  num_msg_in_mbox <- lift (int_of num_msg_in_mbox) ;;
  sea <- do_search ;;
  if negb (fst sea =? "OK")%string then ret UNDEFINED
  else
    d0 <- lift (item0 (snd sea)) ;;
    nums <- lift (split_of d0) ;;
    c <- scan_loop nums token_found token ;;
    when cleanup_flag do_expunge ;;;
    do_close ;;;
    ret (found_of c).

End Search.

(** *** [imap_retrieve_mail]

    Connecting and logging in precede the modelled part. *)

Section Retrieve.

Variable delay : Z.
Variable imap_spambox : option string.
Variable expected_token : string.
Variable cleanup_flag : bool.

(** [if imap_spambox:] *)
Definition truthy (o : option string) : bool :=
  match o with
  | Some EmptyString | None => false
  | Some _ => true
  end.

Definition mailboxes : list string :=
  (if truthy imap_spambox
   then match imap_spambox with Some b => [b] | None => [] end
   else [])
  ++ ["INBOX"].

(** [for mailbox in mailboxes]: [inl status] when the loop runs out,
    [inr status] when the function returned from inside it. *)
Fixpoint mailbox_loop (mbs : list string) (status : MailFound)
  : M S (MailFound + MailFound) :=
  match mbs with
  | [] => ret (inl status)
  | mailbox :: rest =>
      status <- imap_search_server mailbox expected_token cleanup_flag ;;
      if negb (MailFound_eqb status NOT_FOUND)
      then do_logout ;;; ret (inr status)
      else mailbox_loop rest status
  end.

(** [for i in range(0, 3)], over the list of the values of [i]. *)
Fixpoint round_loop (rounds : list Z) (status : MailFound) : M S MailFound :=
  match rounds with
  | [] => do_logout ;;; ret status
  | i :: rest =>
      let curr_delay := delay * (i + 1) ^ 2 in
      when (curr_delay >? 0) (do_sleep curr_delay) ;;;
      r <- mailbox_loop mailboxes status ;;
      match r with
      | inr status => ret status
      | inl status => round_loop rest status
      end
  end.

Definition imap_retrieve_mail : M S MailFound :=
  let status := NOT_FOUND in
  round_loop [0; 1; 2] status.

(** The scheduler as one flat list of actions, stopped by the first scan
    whose outcome is not [NOT_FOUND]; compared with the loops above. *)
Definition round_actions (i : Z) : list action :=
  let curr_delay := delay * (i + 1) ^ 2 in
  (if curr_delay >? 0 then [ASleep curr_delay] else [])
  ++ map AScan mailboxes.

Definition plan : list action := flat_map round_actions [0; 1; 2].

Fixpoint run_plan (acts : list action) (status : MailFound) : M S MailFound :=
  match acts with
  | [] => do_logout ;;; ret status
  | ASleep secs :: rest => do_sleep secs ;;; run_plan rest status
  | AScan mailbox :: rest =>
      status <- imap_search_server mailbox expected_token cleanup_flag ;;
      match status with
      | NOT_FOUND => run_plan rest status
      | _ => do_logout ;;; ret status
      end
  end.

End Retrieve.

(** *** The end of [main]: from the final status to output and exit code.
    The first component lists the lines printed. *)
Definition final_status (debug_flag : bool) (status : MailFound)
  : list string * Z :=
  if MailFound_eqb status FOUND then (["OK"], 0)
  else if MailFound_eqb status FOUND_IN_SPAM then
    ((if debug_flag then ["WARNING - Message found in Spam folder"] else []), 1)
  else if MailFound_eqb status NOT_FOUND then
    (["ERROR - Message not found"], 2)
  else (["UNDEFINED - Undefined state"], 3).

(** [main] from the call of [imap_retrieve_mail] on; [_uuid] is the token
    of the message sent before. *)
Definition main (debug_flag : bool) (delay : Z) (imap_spam : option string)
  (_uuid : string) (imap_cleanup : bool) : M S (list string * Z) :=
  status <- imap_retrieve_mail delay imap_spam _uuid imap_cleanup ;;
  ret (final_status debug_flag status).

End Client.

Arguments imap_search_server {S}.
Arguments imap_retrieve_mail {S}.
Arguments scan_loop {S}.
Arguments loop_body {S}.
Arguments main {S}.
Arguments run_plan {S}.

(** ** A scripted server for concrete runs

    The answers of [select] and [search] and the stored messages are fixed
    by the script; the server state is the list of message numbers flagged
    as deleted. *)
Record script : Type := {
  on_select : string -> string * list (option string);
  on_search : string * list (option string);
  mails : list (string * string)
}.

(** [time.sleep] of CPython on an integer: above this many seconds the
    nanoseconds do not fit 64 bits and the call raises [OverflowError]. *)
Definition SLEEP_MAX : Z := 9223372036.

Definition clock {S} (secs : Z) (s : S) : result unit * S :=
  (if secs >? SLEEP_MAX then Raised OverflowError else Returned tt, s).

Fixpoint lookup (num : string) (l : list (string * string)) : option string :=
  match l with
  | [] => None
  | (k, v) :: rest => if (k =? num)%string then Some v else lookup num rest
  end.

(** The fetch answer for a stored message, and for a number that names
    none. *)
Definition fetch_answer (num : string) (stored : option string)
  : string * list part :=
  match stored with
  | Some text => ("OK", [PPair (num ++ " (RFC822") text; PBytes ")"])
  | None => ("OK", [PNone])
  end.

Definition scripted (sc : script) : imap (list string) := {|
  select := fun mailbox s => (on_select sc mailbox, s);
  search := fun s => (on_search sc, s);
  fetch := fun num s => (fetch_answer num (lookup num (mails sc)), s);
  store := fun num s => (s ++ [num])%list;
  expunge := fun _ => [];
  close := fun s => s;
  logout := fun s => s;
  sleep := clock
|}.

Definition mail_with (header_line : string) : string :=
  "From: a@example.org" ++ CRLF ++ header_line ++ CRLF
  ++ "Subject: Mail test" ++ CRLF2 ++ "Dear Mail Server," ++ CRLF.

Definition plain_mail : string :=
  "From: a@example.org" ++ CRLF ++ "Subject: hello" ++ CRLF2
  ++ "X-Icinga-Test-Id: in-the-body" ++ CRLF.

(** Projections of a list of calls. *)
Definition is_logout (c : call) : bool :=
  match c with CLogout => true | _ => false end.

Definition count_logout (l : list call) : nat := List.length (filter is_logout l).

Definition is_round_call (c : call) : bool :=
  match c with CSleep _ | CSelect _ => true | _ => false end.

(** The sleeps and the mailbox selections, in order. *)
Definition skeleton (l : list call) : list call := filter is_round_call l.

Fixpoint selected (l : list call) : list string :=
  match l with
  | [] => []
  | CSelect mailbox :: rest => mailbox :: selected rest
  | _ :: rest => selected rest
  end.

Definition is_cleanup_call (c : call) : bool :=
  match c with CStore _ | CExpunge => true | _ => false end.

Definition is_inner_call (c : call) : bool :=
  match c with
  | CSearch | CFetch _ | CStore _ | CExpunge | CClose => true
  | _ => false
  end.

Definition sc_of (select_answer search_answer : string * list (option string))
  (stored : list (string * string)) : script :=
  {| on_select := fun _ => select_answer;
     on_search := search_answer;
     mails := stored |}.

Definition act_call (a : action) : call :=
  match a with
  | ASleep secs => CSleep secs
  | AScan mailbox => CSelect mailbox
  end.

Fixpoint scanned (acts : list action) : list string :=
  match acts with
  | [] => []
  | AScan mailbox :: rest => mailbox :: scanned rest
  | ASleep _ :: rest => scanned rest
  end.

(** [int(num_msg_in_mbox[0])] succeeds on this answer of [select]. *)
Definition count_parses (answer : string * list (option string)) : bool :=
  match item0 (snd answer) with
  | Returned x => match int_of x with Returned _ => true | Raised _ => false end
  | Raised _ => false
  end.

(** Concrete sessions used below. *)

(** Two messages in the mailbox; the second carries the token abc. *)
Definition inbox_two : script :=
  sc_of ("OK", [Some "2"]) ("OK", [Some "1 2"])
        [("1", mail_with "X-Icinga-Test-Id: old-token");
         ("2", mail_with "X-Icinga-Test-Id: abc")].

(** The search command is refused. *)
Definition search_refused : script :=
  sc_of ("OK", [Some "0"]) ("NO", [None]) [].

(** The mailbox does not exist: select is refused with the text [imaplib]
    hands back in that case. *)
Definition select_refused : script :=
  sc_of ("NO", [Some "[NONEXISTENT] Unknown Mailbox"]) ("NO", [None]) [].

(** One message without the custom header. *)
Definition no_header_box : script :=
  sc_of ("OK", [Some "1"]) ("OK", [Some "1"]) [("1", plain_mail)].

(** One message whose custom header has no space after the colon. *)
Definition malformed_box : script :=
  sc_of ("OK", [Some "1"]) ("OK", [Some "1"])
        [("1", mail_with "X-Icinga-Test-Id:abc")].

(** A message with another token, then one without the custom header. *)
Definition stale_then_plain : script :=
  sc_of ("OK", [Some "2"]) ("OK", [Some "1 2"])
        [("1", mail_with "X-Icinga-Test-Id: old-token"); ("2", plain_mail)].

(** One message whose token is surrounded by blanks. *)
Definition padded_box : script :=
  sc_of ("OK", [Some "1"]) ("OK", [Some "1"])
        [("1", mail_with "X-Icinga-Test-Id:   abc  ")].

(** The calls of a pass over [nums] in which no message matches: each is
    fetched and, with cleanup, flagged right after. *)
Definition visits (cleanup_flag : bool) (nums : list string) : list call :=
  flat_map (fun num => CFetch num :: if cleanup_flag then [CStore num] else [])
           nums.

Definition is_visit_call (c : call) : bool :=
  match c with CFetch _ | CStore _ => true | _ => false end.

Definition is_end_call (c : call) : bool :=
  match c with CExpunge | CClose => true | _ => false end.

(** The durations slept, in order. *)
Fixpoint sleeps (l : list call) : list Z :=
  match l with
  | [] => []
  | CSleep secs :: rest => secs :: sleeps rest
  | _ :: rest => sleeps rest
  end.

Fixpoint slept (acts : list action) : list Z :=
  match acts with
  | [] => []
  | ASleep secs :: rest => secs :: slept rest
  | AScan _ :: rest => slept rest
  end.

(** The outcome a match gives in this mailbox. *)
Definition found_in (mailbox : string) : MailFound :=
  if (mailbox =? "INBOX")%string then FOUND else FOUND_IN_SPAM.

(** A server that keeps its mailboxes apart: the state is the name of the
    mailbox selected last, and search and fetch answer from that mailbox. *)
Fixpoint box_of (name : string) (boxes : list (string * list (string * string)))
  : list (string * string) :=
  match boxes with
  | [] => []
  | (k, v) :: rest => if (k =? name)%string then v else box_of name rest
  end.

Definition by_mailbox (boxes : list (string * list (string * string)))
  : imap string := {|
  select := fun mailbox _ => (("OK", [Some "0"]), mailbox);
  search := fun s =>
    (("OK", [Some (Py.join " " (map fst (box_of s boxes)))]), s);
  fetch := fun num s => (fetch_answer num (lookup num (box_of s boxes)), s);
  store := fun _ s => s;
  expunge := fun s => s;
  close := fun s => s;
  logout := fun s => s;
  sleep := clock
|}.

(** The token was filed in Junk, and is in INBOX as well. *)
Definition misfiled : list (string * list (string * string)) :=
  [("Junk", [("7", mail_with "X-Icinga-Test-Id: abc")]);
   ("INBOX", [("1", mail_with "X-Icinga-Test-Id: abc")])].

(** No occurrence of [sep] in [p ++ rest] begins inside [p]. *)
Fixpoint none_begins (sep p rest : string) : bool :=
  match p with
  | EmptyString => true
  | String _ p' => negb (prefix sep (p ++ rest)) && none_begins sep p' rest
  end.


(** The message [num] carries the expected token, where [tok_of] gives the
    token the header block of each message sets, if it sets one. *)
Definition carries (tok_of : string -> option string)
  (expected_token num : string) : bool :=
  match tok_of num with
  | Some v => (v =? expected_token)%string
  | None => false
  end.

(** The tokens of the messages of [inbox_two]. *)
Definition inbox_two_tokens (num : string) : option string :=
  if (num =? "1")%string then Some "old-token"
  else if (num =? "2")%string then Some "abc"
  else None.

(** A message whose custom header holds the separator a second time. *)
Definition doubled_box : script :=
  sc_of ("OK", [Some "1"]) ("OK", [Some "1"])
        [("1", mail_with "X-Icinga-Test-Id: abc X-Icinga-Test-Id: def")].

(** A message without the custom header, with a header of a longer name
    whose value quotes the custom header. *)
Definition shadow_box : script :=
  sc_of ("OK", [Some "1"]) ("OK", [Some "1"])
        [("1", mail_with "X-Icinga-Test-Id-Old: X-Icinga-Test-Id: abc")].

(** A message without the custom header, with a header of a longer
    name. *)
Definition longer_name_box : script :=
  sc_of ("OK", [Some "1"]) ("OK", [Some "1"])
        [("1", mail_with "X-Icinga-Test-Id-Old: abc")].


(** ** The header fields of a message, as RFC 5322 reads them

    This is what the claims call the custom header of a message and its
    value, written after the format of messages and not after the program:
    the header section ends at the first empty line, its lines end with
    CR LF, a line that begins with a space or a tab continues the field
    before it, the name of a field is the text before its first colon and
    its value the text after it, here up to the end of the line and without
    the surrounding whitespace. *)
Definition is_continuation (line : string) : bool :=
  match line with
  | String c _ => ((c =? " ") || (c =? "009"))%char
  | EmptyString => false
  end.

Definition field_name (line : string) : string := hd "" (Py.split line ":").

Definition field_value (line : string) : string :=
  Py.strip (Py.join ":" (tl (Py.split line ":"))).

Definition fields (text : string) : list (string * string) :=
  map (fun line => (field_name line, field_value line))
      (filter (fun line => negb (is_continuation line))
              (Py.split (hd "" (Py.split text CRLF2)) CRLF)).

(** The value of the first field of that name, if there is one. *)
Fixpoint field_of (name : string) (l : list (string * string))
  : option string :=
  match l with
  | [] => None
  | (k, v) :: rest => if (k =? name)%string then Some v else field_of name rest
  end.

(** ** Checks of the string primitives against Python's answers *)

Example split_ex1 : Py.split "a, b,c" ", " = ["a"; "b,c"].
Proof. reflexivity. Qed.

Example split_ex2 : Py.split "abab" "ab" = [""; ""; ""].
Proof. reflexivity. Qed.

Example split_ex3 : Py.split "aaa" "aa" = [""; "a"].
Proof. reflexivity. Qed.

Example splitlines_ex1 :
  Py.splitlines ("a" ++ CRLF ++ "b" ++ String "010" "") = ["a"; "b"].
Proof. reflexivity. Qed.

Example splitlines_ex2 :
  Py.splitlines (String "010" (String "013" "x")) = [""; ""; "x"].
Proof. reflexivity. Qed.

Example strip_ex : Py.strip "  a b  " = "a b".
Proof. reflexivity. Qed.

Example words_ex : Py.split_ws " 1 2  33 " = ["1"; "2"; "33"].
Proof. reflexivity. Qed.

Example int_ex1 : Py.int " 1_000 " = Some 1000.
Proof. reflexivity. Qed.

Example int_ex2 : Py.int "[NONEXISTENT] Unknown Mailbox" = None.
Proof. reflexivity. Qed.

Example int_ex3 : Py.int "-07" = Some (-7).
Proof. reflexivity. Qed.

Example strip_ex_wide :
  Py.strip (Py.bytes [194; 160; 32; 97; 226; 128; 168; 98; 227; 128; 128]%N)
  = Py.bytes [97; 226; 128; 168; 98]%N.
Proof. reflexivity. Qed.

Example splitlines_ex_wide :
  Py.splitlines (Py.bytes [97; 194; 133; 98; 12; 195; 133; 99]%N)
  = [Py.bytes [97]%N; Py.bytes [98]%N; Py.bytes [195; 133; 99]%N].
Proof. reflexivity. Qed.

Example valid_utf8_ex :
  Py.valid_utf8 (Py.bytes [97; 195; 169; 226; 130; 172; 240; 159; 152; 128]%N)
  = true
  /\ Py.valid_utf8 (Py.bytes [97; 160]%N) = false
  /\ Py.valid_utf8 (Py.bytes [192; 128]%N) = false
  /\ Py.valid_utf8 (Py.bytes [237; 160; 128]%N) = false
  /\ Py.valid_utf8 (Py.bytes [244; 144; 128; 128]%N) = false
  /\ Py.valid_utf8 (Py.bytes [226; 130]%N) = false.
Proof. repeat split. Qed.

Example mail_of_ex :
  mail_of [] = Raised IndexError
  /\ mail_of [PNone] = Raised TypeError
  /\ mail_of [PBytes "a"] = Raised IndexError
  /\ mail_of [PBytes "1 (FLAGS (\Seen))"] = Raised AttributeError
  /\ mail_of [PPair "1 (RFC822" (Py.bytes [97; 160]%N); PBytes ")"]
     = Raised UnicodeDecodeError.
Proof. repeat split. Qed.

Example header_lines_ex :
  and_then (mail_of (snd (fetch_answer "1"
                            (Some (mail_with "X-Icinga-Test-Id: abc")))))
           (fun email => Returned (header_lines email))
  = Returned ["From: a@example.org"; "X-Icinga-Test-Id: abc";
              "Subject: Mail test"].
Proof. reflexivity. Qed.

Example header_lines_body_ignored :
  and_then (mail_of (snd (fetch_answer "1" (Some plain_mail))))
           (fun email => Returned (header_lines email))
  = Returned ["From: a@example.org"; "Subject: hello"].
Proof. reflexivity. Qed.

(** ** Lemmas on [split] *)

Lemma append_empty_r (s : string) : s ++ "" = s.
Proof. induction s as [|c s IH]; simpl; [reflexivity | now rewrite IH]. Qed.

Lemma append_assoc (a b c : string) : (a ++ b) ++ c = a ++ (b ++ c).
Proof. induction a as [|x a IH]; simpl; [reflexivity | now rewrite IH]. Qed.

Lemma prefix_append (p s : string) : prefix p (p ++ s) = true.
Proof.
  induction p as [|c p IH]; simpl.
  - now destruct s.
  - destruct (ascii_dec c c) as [_|n]; [exact IH | now elim n].
Qed.

(** Without an occurrence of the separator, [split] returns the string
    whole. *)
Lemma split_go_absent (sep : string) :
  forall s cur, Py.contains sep s = false ->
                Py.split_go sep 0 cur s = [cur ++ s].
Proof.
  induction s as [|c s IH]; intros cur H.
  - simpl. now rewrite append_empty_r.
  - cbn [Py.contains] in H. apply orb_false_iff in H as [Hp Hc].
    cbn [Py.split_go]. rewrite Hp, (IH _ Hc), append_assoc. reflexivity.
Qed.

Lemma split_absent (sep s : string) :
  Py.contains sep s = false -> Py.split s sep = [s].
Proof. intros H. unfold Py.split. now rewrite split_go_absent. Qed.

Lemma split_go_skip (sep : string) :
  forall a cur s, Py.split_go sep (length a) cur (a ++ s)
                  = Py.split_go sep 0 cur s.
Proof.
  induction a as [|c a IH]; intros cur s; simpl.
  - now destruct s.
  - apply IH.
Qed.

(** ** Lemmas on the header loop *)

Lemma header_loop_absent (l : list string) :
  forall token,
    forallb (fun line => negb (Py.startswith line HEADER_NAME)) l = true ->
    header_loop l token = Returned token.
Proof.
  induction l as [|line l IH]; intros token H; simpl in *; [reflexivity|].
  apply andb_true_iff in H as [H1 H2].
  destruct (Py.startswith line HEADER_NAME); [discriminate | now apply IH].
Qed.


Lemma header_loop_malformed (l : list string) (line : string) :
  In line l ->
  Py.startswith line HEADER_NAME = true ->
  Py.contains HEADER_SEP line = false ->
  forall token, header_loop l token = Raised IndexError.
Proof.
  intros Hin Hs Hc.
  induction l as [|x l IH]; intros token; [contradiction|].
  simpl. destruct Hin as [->|Hin].
  - rewrite Hs, (split_absent _ _ Hc). reflexivity.
  - destruct (Py.startswith x HEADER_NAME); [|now apply IH].
    destruct (item1 (Py.split x HEADER_SEP)) as [t|e] eqn:E.
    + now apply IH.
    + unfold item1 in E. destruct (nth_error _ 1); congruence.
Qed.

(** ** Further lemmas on [split] and on the header loop *)

Lemma prefix_split (p : string) :
  forall s, prefix p s = true -> exists r, s = p ++ r.
Proof.
  induction p as [|a p IH]; intros s H.
  - now exists s.
  - destruct s as [|b s]; [discriminate|]. simpl in H.
    destruct (ascii_dec a b) as [->|]; [|discriminate].
    destruct (IH _ H) as [r ->]. now exists r.
Qed.

(** The first piece of a split: the text before the first occurrence of the
    separator, or the whole text when there is none. *)
Lemma split_go_first (c0 : ascii) (sep' : string) :
  forall s cur,
    exists p rest,
      s = p ++ rest
      /\ none_begins (String c0 sep') p rest = true
      /\ ((rest = "" /\ Py.split_go (String c0 sep') 0 cur s = [cur ++ p])
          \/ exists r,
               rest = String c0 sep' ++ r
               /\ Py.split_go (String c0 sep') 0 cur s
                  = (cur ++ p) :: Py.split_go (String c0 sep') 0 "" r).
Proof.
  induction s as [|c s IH]; intros cur.
  - exists "", "". split; [reflexivity|]. split; [reflexivity|].
    left. split; [reflexivity|]. simpl. now rewrite append_empty_r.
  - cbn [Py.split_go].
    destruct (prefix (String c0 sep') (String c s)) eqn:Hp.
    + exists "", (String c s). split; [reflexivity|]. split; [reflexivity|].
      right. destruct (prefix_split _ _ Hp) as [r Hr]. exists r.
      split; [exact Hr|]. rewrite append_empty_r. f_equal.
      simpl in Hr. injection Hr as _ Hs. rewrite Hs.
      cbn [length Nat.pred]. apply split_go_skip.
    + destruct (IH (cur ++ String c "")) as (p & rest & Hs & Hn & Hcase).
      exists (String c p), rest. split; [simpl; now rewrite Hs|]. split.
      * cbn [none_begins append]. rewrite <- Hs, Hp, Hn. reflexivity.
      * destruct Hcase as [[Hr He]|(r & Hr & He)].
        -- left. split; [exact Hr|]. rewrite He, append_assoc. reflexivity.
        -- right. exists r. split; [exact Hr|].
           rewrite He, append_assoc. reflexivity.
Qed.

Lemma none_begins_absent (c0 : ascii) (sep' : string) :
  forall p, none_begins (String c0 sep') p "" = true ->
            Py.contains (String c0 sep') p = false.
Proof.
  induction p as [|c p IH]; intros H; [reflexivity|].
  cbn [none_begins] in H. apply andb_true_iff in H as [H1 H2].
  rewrite append_empty_r in H1. apply negb_true_iff in H1.
  cbn [Py.contains]. rewrite H1. exact (IH H2).
Qed.

(** The first two pieces of a split, when the separator occurs. *)
Lemma split_present (c0 : ascii) (sep' line : string) :
  Py.contains (String c0 sep') line = true ->
  exists before value rest tl,
    line = before ++ String c0 sep' ++ value ++ rest
    /\ none_begins (String c0 sep') before (String c0 sep' ++ value ++ rest)
       = true
    /\ none_begins (String c0 sep') value rest = true
    /\ (rest = "" \/ prefix (String c0 sep') rest = true)
    /\ Py.split line (String c0 sep') = before :: value :: tl.
Proof.
  intros H. unfold Py.split.
  destruct (split_go_first c0 sep' line "")
    as (p & rest & Hs & Hn & [[Hr He]|(r & Hr & He)]).
  - subst rest. rewrite append_empty_r in Hs. subst p.
    rewrite (none_begins_absent _ _ _ Hn) in H. discriminate.
  - destruct (split_go_first c0 sep' r "")
      as (p2 & rest2 & Hs2 & Hn2 & Hcase).
    subst rest. subst r.
    assert (Hend : rest2 = "" \/ prefix (String c0 sep') rest2 = true).
    { destruct Hcase as [[Hr _]|(r2 & Hr & _)]; [now left|].
      right. rewrite Hr. apply prefix_append. }
    destruct Hcase as [[_ He2]|(r2 & _ & He2)].
    + exists p, p2, rest2, []. repeat (split; [assumption|]).
      rewrite He, He2. reflexivity.
    + exists p, p2, rest2, (Py.split_go (String c0 sep') 0 "" r2).
      repeat (split; [assumption|]).
      rewrite He, He2. reflexivity.
Qed.


(** ** Laws of the monad *)

Section MonadLaws.

Context {S : Type}.

Lemma bind_ret_l {A B} (a : A) (f : A -> M S B) (s : S) :
  bind (ret a) f s = f a s.
Proof. unfold bind, ret; simpl. now destruct (f a s). Qed.

Lemma bind_assoc {A B C} (m : M S A) (f : A -> M S B) (g : B -> M S C) (s : S) :
  bind (bind m f) g s = bind m (fun a => bind (f a) g) s.
Proof.
  unfold bind. destruct (m s) as [[a|e] s1 c1]; simpl; [|reflexivity].
  destruct (f a s1) as [[b|e] s2 c2]; simpl; [|reflexivity].
  destruct (g b s2) as [r s3 c3]; simpl. now rewrite app_assoc.
Qed.

Lemma bind_ext {A B} (m : M S A) (f g : A -> M S B) (s : S) :
  (forall a s', f a s' = g a s') -> bind m f s = bind m g s.
Proof.
  intros H. unfold bind. destruct (m s) as [[a|e] s1 c1]; simpl;
    [now rewrite H | reflexivity].
Qed.

Lemma bind_lift {A B} (r : result A) (f : A -> M S B) (s : S) :
  bind (lift r) f s
  = match r with
    | Returned a => f a s
    | Raised e => Out (Raised e) s []
    end.
Proof. destruct r; [apply bind_ret_l | reflexivity]. Qed.

Lemma bind_step {A B} (m : M S A) (f : A -> M S B) (s : S)
  (a : A) (s' : S) (c : list call) :
  m s = Out (Returned a) s' c -> bind m f s = prepend c (f a s').
Proof. intros H. unfold bind. rewrite H. reflexivity. Qed.

End MonadLaws.

Lemma count_logout_app (l1 l2 : list call) :
  count_logout (l1 ++ l2) = (count_logout l1 + count_logout l2)%nat.
Proof. unfold count_logout. now rewrite filter_app, length_app. Qed.

Lemma skeleton_app (l1 l2 : list call) :
  skeleton (l1 ++ l2) = (skeleton l1 ++ skeleton l2)%list.
Proof. apply filter_app. Qed.

Lemma selected_app (l1 l2 : list call) :
  selected (l1 ++ l2) = (selected l1 ++ selected l2)%list.
Proof.
  induction l1 as [|c l1 IH]; simpl; [reflexivity|].
  destruct c; simpl; now rewrite IH.
Qed.

Lemma inner_count_logout (l : list call) :
  forallb is_inner_call l = true -> count_logout l = 0%nat.
Proof.
  induction l as [|c l IH]; simpl; [reflexivity|].
  intros H. apply andb_true_iff in H as [Hc Hl].
  destruct c; try discriminate; exact (IH Hl).
Qed.

Lemma inner_skeleton (l : list call) :
  forallb is_inner_call l = true -> skeleton l = [].
Proof.
  induction l as [|c l IH]; simpl; [reflexivity|].
  intros H. apply andb_true_iff in H as [Hc Hl].
  destruct c; try discriminate; exact (IH Hl).
Qed.

Lemma inner_selected (l : list call) :
  forallb is_inner_call l = true -> selected l = [].
Proof.
  induction l as [|c l IH]; simpl; [reflexivity|].
  intros H. apply andb_true_iff in H as [Hc Hl].
  destruct c; try discriminate; exact (IH Hl).
Qed.

(** ** The mailbox searcher *)

Section SearchFacts.

Context {S : Type}.
Variable server : imap S.
Variable mailbox expected_token : string.
Variable cleanup_flag : bool.

Local Abbreviation body := (loop_body server mailbox expected_token cleanup_flag).
Local Abbreviation loop := (scan_loop server mailbox expected_token cleanup_flag).
Local Abbreviation scan :=
  (imap_search_server server mailbox expected_token cleanup_flag).

(** One pass of the loop body while nothing has been found, case by case
    on the message number and on what is read from the fetched answer. *)
Lemma loop_body_not_found (num token : string) (s : S) :
  body num NOT_FOUND token s
  = if Py.valid_utf8 num then
      let (answer, s1) := fetch server num s in
      match read_token (snd answer) token with
      | Raised e => Out (Raised e) s1 [CFetch num]
      | Returned t =>
          if (t =? expected_token)%string
          then Out (Returned (Break (if (mailbox =? "INBOX")%string
                                     then FOUND else FOUND_IN_SPAM) t))
                   s1 [CFetch num]
          else Out (Returned (Continue NOT_FOUND t))
                   (if cleanup_flag then store server num s1 else s1)
                   (CFetch num :: if cleanup_flag then [CStore num] else [])
      end
    else Out (Raised UnicodeDecodeError) s [].
Proof.
  unfold loop_body, decode. destruct (Py.valid_utf8 num); [|reflexivity].
  rewrite bind_lift. cbn [MailFound_eqb].
  destruct (fetch server num s) as [answer s1] eqn:Ef.
  rewrite bind_assoc.
  rewrite (bind_step (do_fetch S server num) _ s answer s1 [CFetch num])
    by (unfold do_fetch; rewrite Ef; reflexivity).
  cbv zeta. rewrite bind_assoc, bind_lift.
  destruct (read_token (snd answer) token) as [t|e]; [|reflexivity].
  destruct (t =? expected_token)%string.
  - rewrite bind_ret_l. reflexivity.
  - rewrite bind_ret_l. destruct cleanup_flag; reflexivity.
Qed.

(** One pass of the loop body once something has been found (a case the
    [break] keeps the loop from reaching). *)
Lemma loop_body_found (num : string) (token_found : MailFound)
  (token : string) (s : S) :
  MailFound_eqb token_found NOT_FOUND = false ->
  body num token_found token s
  = if Py.valid_utf8 num then
      Out (Returned (Continue token_found token))
          (if cleanup_flag then store server num s else s)
          (if cleanup_flag then [CStore num] else [])
    else Out (Raised UnicodeDecodeError) s [].
Proof.
  intros H. unfold loop_body, decode. rewrite H.
  destruct (Py.valid_utf8 num); [|reflexivity].
  rewrite bind_lift, bind_ret_l. destruct cleanup_flag; reflexivity.
Qed.

Lemma loop_body_inner (num : string) (token_found : MailFound)
  (token : string) (s : S) :
  forallb is_inner_call (calls (body num token_found token s)) = true.
Proof.
  destruct (MailFound_eqb token_found NOT_FOUND) eqn:E.
  - destruct token_found; try discriminate.
    rewrite loop_body_not_found.
    destruct (Py.valid_utf8 num); [|reflexivity].
    destruct (fetch server num s) as [answer s1].
    destruct (read_token (snd answer) token) as [t|e]; [|reflexivity].
    destruct (t =? expected_token)%string; [reflexivity|].
    destruct cleanup_flag; reflexivity.
  - rewrite (loop_body_found _ _ _ _ E).
    destruct (Py.valid_utf8 num); [|reflexivity].
    destruct cleanup_flag; reflexivity.
Qed.

Lemma scan_loop_inner (nums : list string) :
  forall token_found token s,
    forallb is_inner_call (calls (loop nums token_found token s)) = true.
Proof.
  induction nums as [|num rest IH]; intros tf tok s; [reflexivity|].
  cbn [scan_loop]. unfold bind.
  pose proof (loop_body_inner num tf tok s) as Hb.
  destruct (loop_body server mailbox expected_token cleanup_flag num tf tok s)
    as [[c|e] s1 c1]; simpl in *; [|exact Hb].
  destruct c as [tf' tok'|tf' tok']; simpl.
  - rewrite forallb_app, Hb. apply IH.
  - now rewrite app_nil_r.
Qed.

(** The end of a scan, after the loop. *)
Lemma scan_tail (nums : list string) (s : S) :
  bind (loop nums NOT_FOUND "")
       (fun c => when cleanup_flag (do_expunge S server) ;;;
                 do_close S server ;;; ret (found_of c)) s
  = let o := loop nums NOT_FOUND "" s in
    match res o with
    | Raised e => Out (Raised e) (srv o) (calls o)
    | Returned c =>
        Out (Returned (found_of c))
            (close server
               (if cleanup_flag then expunge server (srv o) else srv o))
            (calls o ++ (if cleanup_flag then [CExpunge; CClose] else [CClose]))
    end.
Proof.
  unfold bind at 1. cbv zeta.
  destruct (loop nums NOT_FOUND "" s) as [[c|e] s3 c3]; cbn [res srv calls];
    [|reflexivity].
  destruct cleanup_flag; reflexivity.
Qed.

(** The scan, step by step, on the answers of select and search. *)
Lemma scan_unfold (s : S) :
  scan s
  = let (sel, s1) := select server mailbox s in
    match item0 (snd sel) with
    | Raised e => Out (Raised e) s1 [CSelect mailbox]
    | Returned x =>
        match int_of x with
        | Raised e => Out (Raised e) s1 [CSelect mailbox]
        | Returned _ =>
            let (sea, s2) := search server s1 in
            if (fst sea =? "OK")%string then
              match item0 (snd sea) with
              | Raised e => Out (Raised e) s2 [CSelect mailbox; CSearch]
              | Returned d0 =>
                  match split_of d0 with
                  | Raised e => Out (Raised e) s2 [CSelect mailbox; CSearch]
                  | Returned nums =>
                      let o := loop nums NOT_FOUND "" s2 in
                      match res o with
                      | Raised e =>
                          Out (Raised e) (srv o)
                              (CSelect mailbox :: CSearch :: calls o)
                      | Returned c =>
                          Out (Returned (found_of c))
                              (close server
                                 (if cleanup_flag
                                  then expunge server (srv o) else srv o))
                              (CSelect mailbox :: CSearch :: calls o
                               ++ (if cleanup_flag
                                   then [CExpunge; CClose] else [CClose]))
                      end
                  end
              end
            else Out (Returned UNDEFINED) s2 [CSelect mailbox; CSearch]
        end
    end.
Proof.
  unfold imap_search_server.
  destruct (select server mailbox s) as [sel s1] eqn:Esel.
  rewrite (bind_step (do_select S server mailbox) _ s sel s1 [CSelect mailbox])
    by (unfold do_select; rewrite Esel; reflexivity).
  rewrite bind_lift. destruct (item0 (snd sel)) as [x|e]; [|reflexivity].
  rewrite bind_lift. destruct (int_of x) as [n|e]; [|reflexivity].
  destruct (search server s1) as [sea s2] eqn:Esea.
  rewrite (bind_step (do_search S server) _ s1 sea s2 [CSearch])
    by (unfold do_search; rewrite Esea; reflexivity).
  destruct (fst sea =? "OK")%string; cbn [negb]; [|reflexivity].
  rewrite bind_lift. destruct (item0 (snd sea)) as [d0|e]; [|reflexivity].
  rewrite bind_lift. destruct (split_of d0) as [nums|e]; [|reflexivity].
  rewrite scan_tail. cbv zeta.
  destruct (res (loop nums NOT_FOUND "" s2)); reflexivity.
Qed.

(** A scan selects its mailbox first and then makes no call other than
    search, fetch, store, expunge and close. *)
Lemma scan_calls (s : S) :
  exists inner,
    calls (scan s) = CSelect mailbox :: inner
    /\ forallb is_inner_call inner = true.
Proof.
  rewrite scan_unfold.
  destruct (select server mailbox s) as [sel s1].
  destruct (item0 (snd sel)) as [x|e]; [|now exists []].
  destruct (int_of x) as [n|e]; [|now exists []].
  destruct (search server s1) as [sea s2].
  destruct (fst sea =? "OK")%string; [|now exists [CSearch]].
  destruct (item0 (snd sea)) as [d0|e]; [|now exists [CSearch]].
  destruct (split_of d0) as [nums|e]; [|now exists [CSearch]].
  pose proof (scan_loop_inner nums NOT_FOUND "" s2) as Hl. cbv zeta.
  destruct (res (loop nums NOT_FOUND "" s2)) as [c|e]; cbn [calls].
  - eexists; split; [reflexivity|]. cbn [forallb is_inner_call andb].
    rewrite forallb_app, Hl. now destruct cleanup_flag.
  - eexists; split; [reflexivity|]. cbn [forallb is_inner_call andb].
    exact Hl.
Qed.

Lemma scan_count_logout (s : S) : count_logout (calls (scan s)) = 0%nat.
Proof.
  destruct (scan_calls s) as (inner & -> & H).
  change (CSelect mailbox :: inner) with ([CSelect mailbox] ++ inner)%list.
  now rewrite count_logout_app, (inner_count_logout _ H).
Qed.

Lemma scan_skeleton (s : S) : skeleton (calls (scan s)) = [CSelect mailbox].
Proof.
  destruct (scan_calls s) as (inner & -> & H).
  change (CSelect mailbox :: inner) with ([CSelect mailbox] ++ inner)%list.
  now rewrite skeleton_app, (inner_skeleton _ H).
Qed.

Lemma scan_selected (s : S) : selected (calls (scan s)) = [mailbox].
Proof.
  destruct (scan_calls s) as (inner & -> & H).
  simpl. now rewrite (inner_selected _ H).
Qed.

(** With cleanup disabled a scan neither stores a flag nor expunges. *)
Lemma loop_body_no_cleanup (num : string) (token_found : MailFound)
  (token : string) (s : S) :
  cleanup_flag = false ->
  existsb is_cleanup_call (calls (body num token_found token s)) = false.
Proof.
  intros Hc.
  destruct (MailFound_eqb token_found NOT_FOUND) eqn:E.
  - destruct token_found; try discriminate.
    rewrite loop_body_not_found.
    destruct (Py.valid_utf8 num); [|reflexivity].
    destruct (fetch server num s) as [answer s1].
    destruct (read_token (snd answer) token) as [t|e]; [|reflexivity].
    destruct (t =? expected_token)%string; [reflexivity|].
    rewrite Hc. reflexivity.
  - rewrite (loop_body_found _ _ _ _ E).
    destruct (Py.valid_utf8 num); [|reflexivity].
    rewrite Hc. reflexivity.
Qed.

Lemma scan_loop_no_cleanup (nums : list string) :
  cleanup_flag = false ->
  forall token_found token s,
    existsb is_cleanup_call (calls (loop nums token_found token s)) = false.
Proof.
  intros Hc.
  induction nums as [|num rest IH]; intros tf tok s; [reflexivity|].
  cbn [scan_loop]. unfold bind.
  pose proof (loop_body_no_cleanup num tf tok s Hc) as Hb.
  destruct (loop_body server mailbox expected_token cleanup_flag num tf tok s)
    as [[c|e] s1 c1]; simpl in *; [|exact Hb].
  destruct c as [tf' tok'|tf' tok']; simpl.
  - rewrite existsb_app, Hb. apply IH.
  - now rewrite app_nil_r.
Qed.

Lemma scan_no_cleanup (s : S) :
  cleanup_flag = false ->
  existsb is_cleanup_call (calls (scan s)) = false.
Proof.
  intros Hc. rewrite scan_unfold.
  destruct (select server mailbox s) as [sel s1].
  destruct (item0 (snd sel)) as [x|e]; [|reflexivity].
  destruct (int_of x) as [n|e]; [|reflexivity].
  destruct (search server s1) as [sea s2].
  destruct (fst sea =? "OK")%string; [|reflexivity].
  destruct (item0 (snd sea)) as [d0|e]; [|reflexivity].
  destruct (split_of d0) as [nums|e]; [|reflexivity].
  pose proof (scan_loop_no_cleanup nums Hc NOT_FOUND "" s2) as Hl. cbv zeta.
  destruct (res (loop nums NOT_FOUND "" s2)) as [c|e]; cbn [calls].
  - cbn [existsb is_cleanup_call orb]. rewrite existsb_app, Hl, Hc.
    reflexivity.
  - exact Hl.
Qed.

(** While the loop goes on, nothing has been found and the running token
    differs from the expected one. *)
Lemma scan_loop_continue (nums : list string) :
  forall token s token_found' token',
    token <> expected_token ->
    res (loop nums NOT_FOUND token s) = Returned (Continue token_found' token') ->
    token_found' = NOT_FOUND /\ token' <> expected_token.
Proof.
  induction nums as [|num rest IH]; intros tok s tf' tok' Hne H.
  - simpl in H. injection H as <- <-. now split.
  - cbn [scan_loop] in H. unfold bind in H.
    rewrite loop_body_not_found in H.
    destruct (Py.valid_utf8 num); [|discriminate].
    destruct (fetch server num s) as [answer s1].
    destruct (read_token (snd answer) tok) as [t|e]; simpl in H;
      [|discriminate].
    destruct (t =? expected_token)%string eqn:E; simpl in H; [discriminate|].
    apply String.eqb_neq in E. exact (IH _ _ _ _ E H).
Qed.

(** One step of the loop while nothing has been found. *)
Lemma scan_loop_step (num : string) (rest : list string) (token : string)
  (s : S) :
  loop (num :: rest) NOT_FOUND token s
  = if Py.valid_utf8 num then
      let (answer, s1) := fetch server num s in
      match read_token (snd answer) token with
      | Raised e => Out (Raised e) s1 [CFetch num]
      | Returned t =>
          if (t =? expected_token)%string
          then Out (Returned (Break (if (mailbox =? "INBOX")%string
                                     then FOUND else FOUND_IN_SPAM) t))
                   s1 [CFetch num]
          else prepend (CFetch num :: if cleanup_flag then [CStore num] else [])
                       (loop rest NOT_FOUND t
                             (if cleanup_flag then store server num s1 else s1))
      end
    else Out (Raised UnicodeDecodeError) s [].
Proof.
  cbn [scan_loop]. unfold bind. rewrite loop_body_not_found.
  destruct (Py.valid_utf8 num); [|reflexivity].
  destruct (fetch server num s) as [answer s1].
  destruct (read_token (snd answer) token) as [t|e]; [|reflexivity].
  destruct (t =? expected_token)%string; reflexivity.
Qed.

End SearchFacts.

(** ** What the reading of a fetched answer gives *)

(** The token after the header loop: the one before it when no line starts
    with the header name; otherwise the value of the last such line, the
    text between the first occurrence of the separator in it and the next
    one, stripped. *)
Lemma header_loop_last (lines : list string) :
  forall token t,
    header_loop lines token = Returned t ->
    (forallb no_name lines = true /\ t = token)
    \/ exists l1 line l2 before value after,
         lines = (l1 ++ line :: l2)%list
         /\ Py.startswith line HEADER_NAME = true
         /\ forallb no_name l2 = true
         /\ line = before ++ HEADER_SEP ++ value ++ after
         /\ none_begins HEADER_SEP before (HEADER_SEP ++ value ++ after) = true
         /\ none_begins HEADER_SEP value after = true
         /\ (after = "" \/ prefix HEADER_SEP after = true)
         /\ t = Py.strip value.
Proof.
  induction lines as [|x l IH]; intros token t H.
  - left. simpl in H. injection H as <-. now split.
  - cbn [header_loop] in H. cbn [forallb]. unfold no_name at 1.
    destruct (Py.startswith x HEADER_NAME) eqn:Hs.
    + right.
      destruct (Py.contains HEADER_SEP x) eqn:Hc.
      * destruct (split_present _ _ _ Hc)
          as (b & v & r & tl & Hx & Hb & Hv & Hr & Hsp).
        fold HEADER_SEP in *. rewrite Hsp in H. cbn [item1 nth_error] in H.
        destruct (IH _ _ H) as [[Hl ->]|(l1 & line & l2 & b' & v' & r' & Hrest)].
        -- exists [], x, l, b, v, r. repeat (split; [assumption || reflexivity|]).
           reflexivity.
        -- destruct Hrest as (-> & Hrest).
           exists (x :: l1), line, l2, b', v', r'.
           split; [reflexivity | exact Hrest].
      * rewrite (split_absent _ _ Hc) in H. discriminate.
    + destruct (IH _ _ H) as [[Hl ->]|(l1 & line & l2 & b' & v' & r' & Hrest)].
      * left. now split.
      * right. destruct Hrest as (-> & Hrest).
        exists (x :: l1), line, l2, b', v', r'.
        split; [reflexivity | exact Hrest].
Qed.

Lemma read_token_returned (data_mail : list part) (token t : string) :
  read_token data_mail token = Returned t ->
  exists email,
    mail_of data_mail = Returned email
    /\ header_loop (header_lines email) token = Returned t.
Proof.
  unfold read_token. destruct (mail_of data_mail) as [email|e]; [|discriminate].
  intros H. now exists email.
Qed.

Lemma read_token_mail (data_mail : list part) (email : Email) (token : string) :
  mail_of data_mail = Returned email ->
  read_token data_mail token = header_loop (header_lines email) token.
Proof. intros H. unfold read_token. now rewrite H. Qed.


(** ** The loop of the searcher *)

Section SearchMore.

Context {S : Type}.
Variable server : imap S.
Variable mailbox expected_token : string.
Variable cleanup_flag : bool.

Local Abbreviation loop := (scan_loop server mailbox expected_token cleanup_flag).
Local Abbreviation scan :=
  (imap_search_server server mailbox expected_token cleanup_flag).

(** What the loop can end with, starting from nothing found. *)
Lemma scan_loop_result (nums : list string) :
  forall token s,
    match res (loop nums NOT_FOUND token s) with
    | Returned (Continue token_found _) => token_found = NOT_FOUND
    | Returned (Break token_found t) =>
        token_found = found_in mailbox /\ t = expected_token
    | Raised _ => True
    end.
Proof.
  induction nums as [|num rest IH]; intros tok s; [reflexivity|].
  rewrite scan_loop_step.
  destruct (Py.valid_utf8 num); [|exact I].
  destruct (fetch server num s) as [answer s1].
  destruct (read_token (snd answer) tok) as [t|e]; [|exact I].
  destruct (t =? expected_token)%string eqn:Et.
  - apply String.eqb_eq in Et. now split.
  - exact (IH t _).
Qed.

(** The calls of a loop that returns: the messages before the one that
    ends it are fetched in order and, with cleanup, flagged each right after
    its fetch; the message that matches is fetched and nothing follows. *)
Lemma scan_loop_calls (nums : list string) :
  forall token s,
    match res (loop nums NOT_FOUND token s) with
    | Returned (Continue _ _) =>
        calls (loop nums NOT_FOUND token s) = visits cleanup_flag nums
    | Returned (Break _ _) =>
        exists before num after,
          nums = (before ++ num :: after)%list
          /\ calls (loop nums NOT_FOUND token s)
             = (visits cleanup_flag before ++ [CFetch num])%list
    | Raised _ => True
    end.
Proof.
  induction nums as [|num rest IH]; intros tok s; [reflexivity|].
  rewrite scan_loop_step.
  destruct (Py.valid_utf8 num); [|exact I].
  destruct (fetch server num s) as [answer s1].
  destruct (read_token (snd answer) tok) as [t|e]; [|exact I].
  destruct (t =? expected_token)%string.
  - now exists [], num, rest.
  - specialize (IH t (if cleanup_flag then store server num s1 else s1)).
    unfold prepend. cbn [res calls].
    destruct (res (loop rest NOT_FOUND t _)) as [[tf' t'|tf' t']|e];
      [| |exact I].
    + rewrite IH. unfold visits. cbn [flat_map].
      now destruct cleanup_flag.
    + destruct IH as (before & m & after & -> & ->).
      exists (num :: before), m, after. split; [reflexivity|].
      unfold visits. cbn [flat_map]. now destruct cleanup_flag.
Qed.

Lemma scan_loop_visit_calls (nums : list string) :
  forall token_found token s,
    forallb is_visit_call (calls (loop nums token_found token s)) = true.
Proof.
  induction nums as [|num rest IH]; intros tf tok s; [reflexivity|].
  cbn [scan_loop]. unfold bind.
  assert (Hb : forallb is_visit_call
                 (calls (loop_body server mailbox expected_token cleanup_flag
                                   num tf tok s)) = true).
  { destruct (MailFound_eqb tf NOT_FOUND) eqn:E.
    - destruct tf; try discriminate.
      rewrite loop_body_not_found.
      destruct (Py.valid_utf8 num); [|reflexivity].
      destruct (fetch server num s) as [answer s1].
      destruct (read_token (snd answer) tok) as [t|e]; [|reflexivity].
      destruct (t =? expected_token)%string; [reflexivity|].
      destruct cleanup_flag; reflexivity.
    - rewrite (loop_body_found _ _ _ _ _ _ _ _ E).
      destruct (Py.valid_utf8 num); [|reflexivity].
      destruct cleanup_flag; reflexivity. }
  destruct (loop_body server mailbox expected_token cleanup_flag num tf tok s)
    as [[c|e] s1 c1]; simpl in *; [|exact Hb].
  destruct c as [tf' tok'|tf' tok']; simpl.
  - rewrite forallb_app, Hb. apply IH.
  - now rewrite app_nil_r.
Qed.


(** On messages that can be read, the loop returns, and it ends with a
    match exactly when a listed message carries the expected token. *)
Lemma scan_loop_stable (tok_of : string -> option string)
  (nums : list string) :
  (forall n s' t,
      In n nums ->
      Py.valid_utf8 n = true
      /\ read_token (snd (fst (fetch server n s'))) t
         = Returned (match tok_of n with Some v => v | None => t end)) ->
  forall token s,
    token <> expected_token ->
    exists c,
      res (loop nums NOT_FOUND token s) = Returned c
      /\ found_of c
         = if existsb (carries tok_of expected_token) nums
           then found_in mailbox else NOT_FOUND.
Proof.
  induction nums as [|num rest IH]; intros H tok s Hne.
  - exists (Continue NOT_FOUND tok). now split.
  - rewrite scan_loop_step.
    destruct (H num s tok (or_introl eq_refl)) as [Hv Hn]. rewrite Hv.
    destruct (fetch server num s) as [answer s1]. cbn [fst] in Hn. rewrite Hn.
    cbn [existsb]. unfold carries at 1.
    assert (IH' := IH (fun n s' t Hin => H n s' t (or_intror Hin))).
    destruct (tok_of num) as [v|].
    + destruct (v =? expected_token)%string eqn:E.
      * eexists. split; reflexivity.
      * apply String.eqb_neq in E. unfold prepend. cbn [res orb].
        exact (IH' v _ E).
    + apply String.eqb_neq in Hne. rewrite Hne. unfold prepend. cbn [res orb].
      apply String.eqb_neq in Hne. exact (IH' tok _ Hne).
Qed.

(** The outcomes of a scan: UNDEFINED comes from a refused search only, a
    match is FOUND in INBOX and FOUND_IN_SPAM elsewhere. *)
Lemma scan_result (s : S) :
  match res (scan s) with
  | Returned UNDEFINED =>
      count_parses (fst (select server mailbox s)) = true
      /\ (fst (fst (search server (snd (select server mailbox s)))) =? "OK")%string
         = false
  | Returned FOUND => mailbox = "INBOX"
  | Returned FOUND_IN_SPAM => mailbox <> "INBOX"
  | _ => True
  end.
Proof.
  rewrite scan_unfold. unfold count_parses.
  destruct (select server mailbox s) as [sel s1]. cbn [fst snd].
  destruct (item0 (snd sel)) as [x|e]; [|exact I].
  destruct (int_of x) as [n|e]; [|exact I].
  destruct (search server s1) as [sea s2]. cbn [fst snd].
  destruct (fst sea =? "OK")%string; [|cbn [res]; now split].
  destruct (item0 (snd sea)) as [d0|e]; [|exact I].
  destruct (split_of d0) as [nums|e]; [|exact I].
  pose proof (scan_loop_result nums "" s2) as Hr. cbv zeta.
  destruct (res (loop nums NOT_FOUND "" s2)) as [[tf t|tf t]|e]; cbn [res];
    [subst tf; exact I| |exact I].
  destruct Hr as [-> _]. cbn [found_of]. unfold found_in.
  destruct (mailbox =? "INBOX")%string eqn:E.
  - now apply String.eqb_eq.
  - now apply String.eqb_neq.
Qed.

End SearchMore.

Lemma existsb_end_visits (l : list call) :
  forallb is_visit_call l = true -> existsb is_end_call l = false.
Proof.
  induction l as [|c l IH]; simpl; [reflexivity|].
  intros H. apply andb_true_iff in H as [Hc Hl].
  destruct c; try discriminate; exact (IH Hl).
Qed.

(** ** The retry scheduler *)

Section RetrieveFacts.

Context {S : Type}.
Variable server : imap S.
Variable delay : Z.
Variable imap_spambox : option string.
Variable expected_token : string.
Variable cleanup_flag : bool.

Local Abbreviation scan mailbox :=
  (imap_search_server server mailbox expected_token cleanup_flag).
Local Abbreviation run := (run_plan server expected_token cleanup_flag).

(** The inner loop followed by the rest of the function is the flat plan
    of its scans followed by the rest. *)
Lemma mailbox_loop_flat (mbs : list string) (rest : list action) :
  forall status s,
    bind (mailbox_loop S server expected_token cleanup_flag mbs status)
         (fun r => match r with
                   | inr status => ret status
                   | inl status => run rest status
                   end) s
    = run (map AScan mbs ++ rest) status s.
Proof.
  induction mbs as [|mb mbs IH]; intros status s.
  - cbn [mailbox_loop map app]. now rewrite bind_ret_l.
  - cbn [mailbox_loop map app run_plan].
    rewrite bind_assoc. apply bind_ext. intros st s'.
    destruct st; cbn [MailFound_eqb negb]; try reflexivity.
    apply IH.
Qed.

Lemma round_loop_flat (rounds : list Z) :
  forall status s,
    round_loop S server delay imap_spambox expected_token cleanup_flag
               rounds status s
    = run (flat_map (round_actions delay imap_spambox) rounds) status s.
Proof.
  induction rounds as [|i rounds IH]; intros status s; [reflexivity|].
  cbn [round_loop flat_map]. unfold round_actions at 1.
  rewrite <- app_assoc.
  assert (Hrest : forall s',
    bind (mailbox_loop S server expected_token cleanup_flag
                       (mailboxes imap_spambox) status)
         (fun r => match r with
                   | inr status0 => ret status0
                   | inl status0 =>
                       round_loop S server delay imap_spambox expected_token
                                  cleanup_flag rounds status0
                   end) s'
    = run (map AScan (mailboxes imap_spambox)
           ++ flat_map (round_actions delay imap_spambox) rounds) status s').
  { intros s'. rewrite <- mailbox_loop_flat. apply bind_ext.
    intros [st|st] s''; [apply IH | reflexivity]. }
  destruct (delay * (i + 1) ^ 2 >? 0); cbn [when app].
  - cbn [run_plan].
    apply bind_ext. intros _ s'. apply Hrest.
  - rewrite bind_ret_l. apply Hrest.
Qed.

(** The scheduler is its flat plan. *)
Lemma retrieve_flat (s : S) :
  imap_retrieve_mail server delay imap_spambox expected_token cleanup_flag s
  = run (plan delay imap_spambox) NOT_FOUND s.
Proof. apply round_loop_flat. Qed.

(** One step of a plan. *)
Lemma run_plan_sleep (secs : Z) (acts : list action) status s :
  run (ASleep secs :: acts) status s
  = match fst (sleep server secs s) with
    | Returned _ =>
        prepend [CSleep secs] (run acts status (snd (sleep server secs s)))
    | Raised e => Out (Raised e) (snd (sleep server secs s)) [CSleep secs]
    end.
Proof.
  cbn [run_plan]. unfold bind at 1, do_sleep. cbv zeta.
  destruct (sleep server secs s) as [[[]|e] s1]; reflexivity.
Qed.

Lemma run_plan_scan (mb : string) (acts : list action) status s :
  run (AScan mb :: acts) status s
  = let o := scan mb s in
    match res o with
    | Raised e => Out (Raised e) (srv o) (calls o)
    | Returned NOT_FOUND =>
        let o' := run acts NOT_FOUND (srv o) in
        Out (res o') (srv o') (calls o ++ calls o')
    | Returned st =>
        Out (Returned st) (logout server (srv o)) (calls o ++ [CLogout])
    end.
Proof.
  cbn [run_plan]. unfold bind at 1. cbv zeta.
  destruct (res (imap_search_server server mb expected_token cleanup_flag s))
    as [st|e]; [|reflexivity].
  destruct st; reflexivity.
Qed.

(** Logout on the paths of a plan. *)
Lemma run_plan_logout (acts : list action) :
  forall status s,
    let o := run acts status s in
    match res o with
    | Returned _ =>
        count_logout (calls o) = 1%nat
        /\ exists before, calls o = (before ++ [CLogout])%list
    | Raised _ => count_logout (calls o) = 0%nat
    end.
Proof.
  induction acts as [|a acts IH]; intros status s.
  - simpl. split; [reflexivity | now exists []].
  - destruct a as [secs|mb]; cbv zeta.
    + rewrite run_plan_sleep.
      destruct (fst (sleep server secs s)) as [u|e]; [|reflexivity].
      unfold prepend. cbn [res calls].
      specialize (IH status (snd (sleep server secs s))). cbv zeta in IH.
      destruct (res (run acts status (snd (sleep server secs s)))).
      * destruct IH as [Hc [before Hb]]. split; [exact Hc|].
        exists (CSleep secs :: before). now rewrite Hb.
      * exact IH.
    + rewrite run_plan_scan. cbv zeta.
      pose proof (scan_count_logout server mb expected_token cleanup_flag s)
        as Hs.
      destruct (res (scan mb s)) as [st|e]; [|exact Hs].
      assert (Hstop :
        count_logout (calls (scan mb s) ++ [CLogout])%list = 1%nat
        /\ exists before, (calls (scan mb s) ++ [CLogout])%list
                          = (before ++ [CLogout])%list).
      { split; [rewrite count_logout_app, Hs; reflexivity|].
        now exists (calls (scan mb s)). }
      destruct st; try exact Hstop.
      cbn [res calls]. specialize (IH NOT_FOUND (srv (scan mb s))).
      cbv zeta in IH.
      destruct (res (run acts NOT_FOUND (srv (scan mb s)))).
      * destruct IH as [Hc [before Hb]]. split.
        -- now rewrite count_logout_app, Hs, Hc.
        -- exists (calls (scan mb s) ++ before)%list.
           now rewrite Hb, app_assoc.
      * now rewrite count_logout_app, Hs, IH.
Qed.

(** A plan that ends with [NOT_FOUND] went through all its actions. *)
Lemma run_plan_not_found (acts : list action) :
  forall status s,
    res (run acts status s) = Returned NOT_FOUND ->
    skeleton (calls (run acts status s)) = map act_call acts.
Proof.
  induction acts as [|a acts IH]; intros status s H.
  - reflexivity.
  - destruct a as [secs|mb].
    + rewrite run_plan_sleep in *.
      destruct (fst (sleep server secs s)) as [u|e]; [|discriminate].
      unfold prepend in *. cbn [res calls] in *.
      cbn [map act_call]. rewrite skeleton_app, (IH _ _ H). reflexivity.
    + rewrite run_plan_scan in *. cbv zeta in *.
      pose proof (scan_skeleton server mb expected_token cleanup_flag s) as Hs.
      destruct (res (scan mb s)) as [st|e]; [|discriminate].
      destruct st; try discriminate.
      cbn [res calls] in *.
      rewrite skeleton_app, Hs, (IH _ _ H). reflexivity.
Qed.

(** The mailboxes a plan selects are an initial part of those it lists. *)
Lemma run_plan_selected (acts : list action) :
  forall status s,
    exists later,
      (selected (calls (run acts status s)) ++ later)%list = scanned acts.
Proof.
  induction acts as [|a acts IH]; intros status s.
  - now exists [].
  - destruct a as [secs|mb].
    + rewrite run_plan_sleep.
      destruct (fst (sleep server secs s)) as [u|e].
      * unfold prepend. cbn [res calls scanned selected app]. apply IH.
      * exists (scanned acts). reflexivity.
    + rewrite run_plan_scan. cbv zeta.
      pose proof (scan_selected server mb expected_token cleanup_flag s) as Hs.
      destruct (res (scan mb s)) as [st|e].
      * assert (Hstop : exists later,
          (selected (calls (scan mb s) ++ [CLogout]) ++ later)%list
          = mb :: scanned acts).
        { exists (scanned acts). now rewrite selected_app, Hs. }
        destruct st; try exact Hstop.
        destruct (IH NOT_FOUND (srv (scan mb s))) as [later Hl].
        exists later. cbn [res calls scanned].
        now rewrite selected_app, Hs, <- Hl.
      * exists (scanned acts). cbn [calls scanned]. now rewrite Hs.
Qed.

End RetrieveFacts.

(** ** The plan of a run *)

Lemma mailboxes_first (imap_spambox : option string) :
  exists mb rest, mailboxes imap_spambox = mb :: rest.
Proof.
  unfold mailboxes. destruct (truthy imap_spambox).
  - destruct imap_spambox as [b|]; simpl; eauto.
  - simpl; eauto.
Qed.

Lemma map_act_call_scans (mbs : list string) :
  map act_call (map AScan mbs) = map CSelect mbs.
Proof. induction mbs as [|mb mbs IH]; simpl; [reflexivity | now rewrite IH]. Qed.

Lemma scanned_app (a b : list action) :
  scanned (a ++ b) = (scanned a ++ scanned b)%list.
Proof.
  induction a as [|x a IH]; simpl; [reflexivity|].
  destruct x; simpl; now rewrite IH.
Qed.

Lemma scanned_scans (mbs : list string) : scanned (map AScan mbs) = mbs.
Proof. induction mbs as [|mb mbs IH]; simpl; [reflexivity | now rewrite IH]. Qed.

Lemma scanned_round (delay : Z) (imap_spambox : option string) (i : Z) :
  scanned (round_actions delay imap_spambox i) = mailboxes imap_spambox.
Proof.
  unfold round_actions. rewrite scanned_app, scanned_scans.
  now destruct (delay * (i + 1) ^ 2 >? 0).
Qed.

Lemma scanned_plan (delay : Z) (imap_spambox : option string) :
  scanned (plan delay imap_spambox)
  = (mailboxes imap_spambox ++ mailboxes imap_spambox
     ++ mailboxes imap_spambox)%list.
Proof.
  unfold plan. cbn [flat_map].
  rewrite !scanned_app, !scanned_round. cbn [scanned].
  now rewrite app_nil_r.
Qed.

Lemma plan_positive_delay (delay : Z) (imap_spambox : option string) :
  delay > 0 ->
  plan delay imap_spambox
  = ([ASleep delay] ++ map AScan (mailboxes imap_spambox)
     ++ [ASleep (4 * delay)] ++ map AScan (mailboxes imap_spambox)
     ++ [ASleep (9 * delay)] ++ map AScan (mailboxes imap_spambox))%list.
Proof.
  intros Hd. unfold plan. cbn [flat_map]. unfold round_actions.
  assert (E1 : delay * (0 + 1) ^ 2 = delay) by ring.
  assert (E4 : delay * (1 + 1) ^ 2 = 4 * delay) by ring.
  assert (E9 : delay * (2 + 1) ^ 2 = 9 * delay) by ring.
  rewrite E1, E4, E9.
  assert (H1 : (delay >? 0) = true) by (apply Z.gtb_lt; lia).
  assert (H4 : (4 * delay >? 0) = true) by (apply Z.gtb_lt; lia).
  assert (H9 : (9 * delay >? 0) = true) by (apply Z.gtb_lt; lia).
  rewrite H1, H4, H9, app_nil_r, <- !app_assoc. reflexivity.
Qed.

Lemma sleeps_app (l1 l2 : list call) :
  sleeps (l1 ++ l2) = (sleeps l1 ++ sleeps l2)%list.
Proof.
  induction l1 as [|c l1 IH]; simpl; [reflexivity|].
  destruct c; simpl; now rewrite IH.
Qed.

Lemma inner_sleeps (l : list call) :
  forallb is_inner_call l = true -> sleeps l = [].
Proof.
  induction l as [|c l IH]; simpl; intros H; [reflexivity|].
  apply andb_true_iff in H as [Hc Hl].
  destruct c; try discriminate; exact (IH Hl).
Qed.

Lemma slept_app (a b : list action) :
  slept (a ++ b) = (slept a ++ slept b)%list.
Proof.
  induction a as [|x a IH]; simpl; [reflexivity|].
  destruct x; simpl; now rewrite IH.
Qed.

Lemma slept_scans (mbs : list string) : slept (map AScan mbs) = [].
Proof. induction mbs as [|mb mbs IH]; simpl; [reflexivity | exact IH]. Qed.

Lemma slept_plan_positive (delay : Z) (imap_spambox : option string) :
  delay > 0 ->
  slept (plan delay imap_spambox) = [delay; 4 * delay; 9 * delay].
Proof.
  intros Hd. rewrite (plan_positive_delay _ _ Hd).
  rewrite !slept_app, !slept_scans. reflexivity.
Qed.

Lemma slept_plan_not_positive (delay : Z) (imap_spambox : option string) :
  delay <= 0 -> slept (plan delay imap_spambox) = [].
Proof.
  intros Hd. unfold plan. cbn [flat_map]. unfold round_actions.
  assert (E1 : delay * (0 + 1) ^ 2 = delay) by ring.
  assert (E4 : delay * (1 + 1) ^ 2 = 4 * delay) by ring.
  assert (E9 : delay * (2 + 1) ^ 2 = 9 * delay) by ring.
  rewrite E1, E4, E9.
  assert (H1 : (delay >? 0) = false)
    by (destruct (Z.gtb_spec delay 0); [lia | reflexivity]).
  assert (H4 : (4 * delay >? 0) = false)
    by (destruct (Z.gtb_spec (4 * delay) 0); [lia | reflexivity]).
  assert (H9 : (9 * delay >? 0) = false)
    by (destruct (Z.gtb_spec (9 * delay) 0); [lia | reflexivity]).
  rewrite H1, H4, H9, !slept_app, !slept_scans. reflexivity.
Qed.

(** The plan begins with the sleep of the first round, if there is one, and
    the scans of the first round. *)
Lemma plan_head (delay : Z) (imap_spambox : option string) :
  exists rest,
    plan delay imap_spambox
    = ((if delay >? 0 then [ASleep delay] else [])
       ++ map AScan (mailboxes imap_spambox) ++ rest)%list.
Proof.
  unfold plan. cbn [flat_map].
  change (round_actions delay imap_spambox 0)
    with ((if delay * (0 + 1) ^ 2 >? 0
           then [ASleep (delay * (0 + 1) ^ 2)] else [])
          ++ map AScan (mailboxes imap_spambox))%list.
  assert (E1 : delay * (0 + 1) ^ 2 = delay) by ring.
  rewrite E1, <- app_assoc. eexists. reflexivity.
Qed.

Lemma in_mailboxes (imap_spambox : option string) (mb : string) :
  In mb (mailboxes imap_spambox) ->
  mb = "INBOX"
  \/ (imap_spambox = Some mb /\ mb <> "").
Proof.
  unfold mailboxes. destruct imap_spambox as [[|c b]|]; simpl.
  - intros [<-|[]]. now left.
  - intros [<-|[<-|[]]]; [right | now left]. split; [reflexivity | discriminate].
  - intros [<-|[]]. now left.
Qed.

Section RetrieveMore.

Context {S : Type}.
Variable server : imap S.
Variable expected_token : string.
Variable cleanup_flag : bool.

Local Abbreviation scan mailbox :=
  (imap_search_server server mailbox expected_token cleanup_flag).
Local Abbreviation run := (run_plan server expected_token cleanup_flag).

Lemma scan_sleeps (mb : string) (s : S) : sleeps (calls (scan mb s)) = [].
Proof.
  destruct (scan_calls server mb expected_token cleanup_flag s)
    as (inner & -> & H).
  simpl. exact (inner_sleeps _ H).
Qed.

(** The durations a plan sleeps are an initial part of those it lists. *)
Lemma run_plan_sleeps (acts : list action) :
  forall status s,
    exists later,
      (sleeps (calls (run acts status s)) ++ later)%list = slept acts.
Proof.
  induction acts as [|a acts IH]; intros status s.
  - now exists [].
  - destruct a as [secs|mb].
    + rewrite run_plan_sleep.
      destruct (fst (sleep server secs s)) as [u|e].
      * unfold prepend. cbn [calls sleeps slept app].
        destruct (IH status (snd (sleep server secs s))) as [later Hl].
        exists later. cbn [app]. now rewrite Hl.
      * exists (slept acts). reflexivity.
    + rewrite run_plan_scan. cbv zeta.
      pose proof (scan_sleeps mb s) as Hs.
      destruct (res (scan mb s)) as [st|e].
      * assert (Hstop : exists later,
          (sleeps (calls (scan mb s) ++ [CLogout]) ++ later)%list
          = slept acts).
        { exists (slept acts). now rewrite sleeps_app, Hs. }
        destruct st; try exact Hstop.
        destruct (IH NOT_FOUND (srv (scan mb s))) as [later Hl].
        exists later. cbn [res calls slept].
        now rewrite sleeps_app, Hs.
      * exists (slept acts). cbn [calls slept]. now rewrite Hs.
Qed.

(** With cleanup disabled no step of a plan stores a flag or expunges. *)
Lemma run_plan_no_cleanup (acts : list action) :
  cleanup_flag = false ->
  forall status s,
    existsb is_cleanup_call (calls (run acts status s)) = false.
Proof.
  intros Hc. induction acts as [|a acts IH]; intros status s.
  - reflexivity.
  - destruct a as [secs|mb].
    + rewrite run_plan_sleep.
      destruct (fst (sleep server secs s)) as [u|e]; [|reflexivity].
      unfold prepend. cbn [calls app existsb is_cleanup_call orb]. apply IH.
    + rewrite run_plan_scan. cbv zeta.
      pose proof (scan_no_cleanup server mb expected_token cleanup_flag s Hc)
        as Hs.
      destruct (res (scan mb s)) as [st|e]; [|exact Hs].
      assert (Hstop :
        existsb is_cleanup_call (calls (scan mb s) ++ [CLogout]) = false)
        by (rewrite existsb_app, Hs; reflexivity).
      destruct st; try exact Hstop.
      cbn [calls]. rewrite existsb_app, Hs. apply IH.
Qed.

(** A plan that returns an outcome other than NOT_FOUND got it from the
    scan of the mailbox it selected last. *)
Lemma run_plan_stops (acts : list action) :
  forall s st,
    res (run acts NOT_FOUND s) = Returned st ->
    st <> NOT_FOUND ->
    exists mb s' before,
      In mb (scanned acts)
      /\ res (scan mb s') = Returned st
      /\ selected (calls (run acts NOT_FOUND s)) = (before ++ [mb])%list.
Proof.
  induction acts as [|a acts IH]; intros s st H Hne.
  - simpl in H. injection H as <-. now elim Hne.
  - destruct a as [secs|mb].
    + rewrite run_plan_sleep in *.
      destruct (fst (sleep server secs s)) as [u|e]; [|discriminate].
      unfold prepend in *. cbn [res calls selected scanned app] in *.
      exact (IH _ _ H Hne).
    + rewrite run_plan_scan in *. cbv zeta in *.
      pose proof (scan_selected server mb expected_token cleanup_flag s) as Hs.
      destruct (res (scan mb s)) as [st'|e] eqn:Er; [|discriminate].
      assert (Hstop : st' = st ->
        exists mb0 s' before,
          In mb0 (scanned (AScan mb :: acts))
          /\ res (scan mb0 s') = Returned st
          /\ selected (calls (scan mb s) ++ [CLogout])
             = (before ++ [mb0])%list).
      { intros <-. exists mb, s, []. split; [now left|].
        split; [exact Er|]. now rewrite selected_app, Hs. }
      destruct st';
        try (cbn [res calls] in *; injection H as H; exact (Hstop H)).
      cbn [res calls] in *.
      destruct (IH _ _ H Hne) as (mb0 & s' & before & Hin & Hr & Hsel).
      exists mb0, s', (mb :: before). split; [now right|].
      split; [exact Hr|]. now rewrite selected_app, Hs, Hsel.
Qed.


(** The first scan of a plan that lists one is always made. *)
Lemma run_plan_first_scan (mb : string) (acts : list action) :
  forall status s,
    exists rest, selected (calls (run (AScan mb :: acts) status s)) = mb :: rest.
Proof.
  intros status s. rewrite run_plan_scan. cbv zeta.
  pose proof (scan_selected server mb expected_token cleanup_flag s) as Hs.
  destruct (res (scan mb s)) as [st|e].
  - assert (Hstop : exists rest,
      selected (calls (scan mb s) ++ [CLogout]) = mb :: rest).
    { exists []. now rewrite selected_app, Hs. }
    destruct st; try exact Hstop.
    cbn [calls]. rewrite selected_app, Hs. eexists. reflexivity.
  - exists []. exact Hs.
Qed.

(** A plan that ends with NOT_FOUND selected all the mailboxes it lists. *)
Lemma run_plan_not_found_selected (acts : list action) :
  forall status s,
    res (run acts status s) = Returned NOT_FOUND ->
    selected (calls (run acts status s)) = scanned acts.
Proof.
  induction acts as [|a acts IH]; intros status s H.
  - reflexivity.
  - destruct a as [secs|mb].
    + rewrite run_plan_sleep in *.
      destruct (fst (sleep server secs s)) as [u|e]; [|discriminate].
      unfold prepend in *. cbn [res calls selected scanned app] in *.
      exact (IH _ _ H).
    + rewrite run_plan_scan in *. cbv zeta in *.
      pose proof (scan_selected server mb expected_token cleanup_flag s) as Hs.
      destruct (res (scan mb s)) as [st|e]; [|discriminate].
      destruct st; try discriminate.
      cbn [res calls scanned] in *.
      rewrite selected_app, Hs, (IH _ _ H). reflexivity.
Qed.

(** A run whose first sleep, if it has one, returns makes the scan of its
    first mailbox. *)
Lemma run_first_scan (delay : Z) (imap_spambox : option string) (s : S) :
  (delay > 0 -> fst (sleep server delay s) = Returned tt) ->
  exists mb more rest,
    mailboxes imap_spambox = mb :: more
    /\ selected (calls (run (plan delay imap_spambox) NOT_FOUND s))
       = mb :: rest.
Proof.
  intros Hsleep.
  destruct (mailboxes_first imap_spambox) as (mb & more & Hm).
  exists mb, more.
  destruct (plan_head delay imap_spambox) as [rest ->]. rewrite Hm.
  cbn [map app].
  destruct (Z.gtb_spec delay 0) as [Hd|Hd]; cbn [app].
  - rewrite run_plan_sleep, Hsleep by lia.
    unfold prepend. cbn [calls selected app].
    destruct (run_plan_first_scan mb (map AScan more ++ rest) NOT_FOUND
                (snd (sleep server delay s))) as [r Hr].
    exists r. split; [reflexivity | exact Hr].
  - destruct (run_plan_first_scan mb (map AScan more ++ rest) NOT_FOUND s)
      as [r Hr].
    exists r. split; [reflexivity | exact Hr].
Qed.

End RetrieveMore.

(** [main] adds no call to those of the scheduler, and maps its status. *)
Lemma main_unfold {S : Type} (server : imap S) (debug_flag : bool)
  (delay : Z) (imap_spam : option string) (_uuid : string)
  (imap_cleanup : bool) (s : S) :
  let o := imap_retrieve_mail server delay imap_spam _uuid imap_cleanup s in
  res (main server debug_flag delay imap_spam _uuid imap_cleanup s)
  = match res o with
    | Returned status => Returned (final_status debug_flag status)
    | Raised e => Raised e
    end
  /\ calls (main server debug_flag delay imap_spam _uuid imap_cleanup s)
     = calls o.
Proof.
  unfold main, bind. cbv zeta.
  destruct (res (imap_retrieve_mail server delay imap_spam _uuid
                   imap_cleanup s)); cbn [res calls ret];
    [now rewrite app_nil_r | now split].
Qed.

(** ** The claims *)

(** C1. With cleanup enabled, a scan over two messages of which the second
    matches marks the first one deleted, but leaves the loop at the match
    before the marking step: the matched message is fetched and never
    stored as deleted, so the purge that follows cannot remove it. *)
Theorem cleanup_skips_matched_message :
  imap_search_server (scripted inbox_two) "INBOX" "abc" true []
  = Out (Returned FOUND) []
        [CSelect "INBOX"; CSearch; CFetch "1"; CStore "1"; CFetch "2";
         CExpunge; CClose]
  /\ In (CFetch "2")
        (calls (imap_search_server (scripted inbox_two) "INBOX" "abc" true []))
  /\ existsb (fun c => match c with CStore "2" => true | _ => false end)
        (calls (imap_search_server (scripted inbox_two) "INBOX" "abc" true []))
     = false.
Proof.
  split; [vm_compute; reflexivity|].
  split; [vm_compute; tauto | vm_compute; reflexivity].
Qed.

(** C2, as stated, fails: the very first scan yields UNDEFINED and the
    scheduler logs out and returns at once, after one of six scans. *)
Lemma undefined_ends_retry_loop :
  res (imap_search_server (scripted search_refused) "Junk" "abc" false [])
  = Returned UNDEFINED
  /\ imap_retrieve_mail (scripted search_refused) 10 (Some "Junk") "abc" false []
     = Out (Returned UNDEFINED) []
           [CSleep 10; CSelect "Junk"; CSearch; CLogout].
Proof. split; vm_compute; reflexivity. Qed.

(** C2, amended. The scheduler runs its sleeps and scans in order and stops
    at the first scan whose outcome is not NOT_FOUND, be it FOUND,
    FOUND_IN_SPAM or UNDEFINED: it logs out and returns that outcome, with
    no further mailbox and no further round.  When every scan yields
    NOT_FOUND it logs out after the third round and returns NOT_FOUND. *)
Theorem retrieve_stops_at_first_definitive :
  forall (S : Type) (server : imap S) (delay : Z)
         (imap_spambox : option string) (expected_token : string)
         (cleanup_flag : bool) (s : S),
    imap_retrieve_mail server delay imap_spambox expected_token cleanup_flag s
    = run_plan server expected_token cleanup_flag
               (plan delay imap_spambox) NOT_FOUND s.
Proof. intros. apply retrieve_flat. Qed.

(** ** C3 *)

(** C3. A refused select is not turned into UNDEFINED.  The status of the
    select answer is only printed; the first element of its data, the text
    of the refusal, goes to [int(...)], which raises ValueError.  The scan
    ends there, after the select call alone, and so does the run: it makes
    one attempt, raises the ValueError to the caller of [main], prints no
    status line and does not log out.  UNDEFINED, which the program returns
    for a refused search one statement later, is not reached. *)
Theorem refused_select_raises :
  forall (S : Type) (server : imap S),
    (forall mailbox s,
        exists text more,
          fst (select server mailbox s) = ("NO", Some text :: more)
          /\ Py.int text = None) ->
    (forall mailbox expected_token cleanup_flag s,
        imap_search_server server mailbox expected_token cleanup_flag s
        = Out (Raised ValueError) (snd (select server mailbox s))
              [CSelect mailbox])
    /\ (forall debug_flag delay imap_spam _uuid imap_cleanup s,
           (delay > 0 -> fst (sleep server delay s) = Returned tt) ->
           let o := main server debug_flag delay imap_spam _uuid
                         imap_cleanup s in
           res o = Raised ValueError
           /\ (exists mailbox, selected (calls o) = [mailbox])
           /\ count_logout (calls o) = 0%nat).
Proof.
  intros S server Hsel.
  assert (Hscan : forall mailbox expected_token cleanup_flag s,
    imap_search_server server mailbox expected_token cleanup_flag s
    = Out (Raised ValueError) (snd (select server mailbox s))
          [CSelect mailbox]).
  { intros mailbox e c s. rewrite scan_unfold.
    destruct (Hsel mailbox s) as (text & more & Ha & Hi).
    destruct (select server mailbox s) as [sel s1]. cbn [fst snd] in *.
    subst sel. cbn [snd item0 int_of]. rewrite Hi. reflexivity. }
  split; [exact Hscan|].
  intros dbg delay spam uuid c s Hsleep. cbv zeta.
  destruct (main_unfold server dbg delay spam uuid c s) as [-> ->].
  rewrite retrieve_flat.
  destruct (mailboxes_first spam) as (mb & more & Hm).
  destruct (plan_head delay spam) as [rest ->]. rewrite Hm. cbn [map app].
  destruct (Z.gtb_spec delay 0) as [Hd|Hd]; cbn [app].
  - rewrite run_plan_sleep, Hsleep by lia. unfold prepend.
    rewrite run_plan_scan, Hscan. cbv zeta. cbn [res calls selected app].
    split; [reflexivity|]. split; [now exists mb | reflexivity].
  - rewrite run_plan_scan, Hscan. cbv zeta. cbn [res calls selected].
    split; [reflexivity|]. split; [now exists mb | reflexivity].
Qed.

Lemma refused_select_raises_witness :
  fst (select (scripted select_refused) "INBOX" [])
  = ("NO", [Some "[NONEXISTENT] Unknown Mailbox"])
  /\ imap_search_server (scripted select_refused) "INBOX" "abc" false []
     = Out (Raised ValueError) [] [CSelect "INBOX"]
  /\ res (main (scripted select_refused) false 10 None "abc" false [])
     = Raised ValueError
  /\ calls (main (scripted select_refused) false 10 None "abc" false [])
     = [CSleep 10; CSelect "INBOX"].
Proof.
  assert (H : forall mailbox s,
    exists text more,
      fst (select (scripted select_refused) mailbox s)
      = ("NO", Some text :: more)
      /\ Py.int text = None).
  { intros mailbox s. exists "[NONEXISTENT] Unknown Mailbox", [].
    split; reflexivity. }
  destruct (refused_select_raises _ (scripted select_refused) H)
    as [Hscan Hrun].
  split; [reflexivity|]. split; [apply Hscan|].
  split; [|vm_compute; reflexivity].
  apply (Hrun false 10 None "abc" false []). reflexivity.
Defined.

(** ** C4 and C5 *)

(** C4, as stated, fails: with a base delay of 10 seconds and no match found
    a run can end after one round and one sleep.  A refused search gives
    UNDEFINED at the first scan, and a message that cannot be parsed raises
    at the first scan; neither run reaches a second round. *)
Lemma no_match_can_end_after_one_round :
  res (imap_retrieve_mail (scripted search_refused) 10 (Some "Junk") "abc"
         false [])
  = Returned UNDEFINED
  /\ skeleton (calls (imap_retrieve_mail (scripted search_refused) 10
                        (Some "Junk") "abc" false []))
     = [CSleep 10; CSelect "Junk"]
  /\ res (imap_retrieve_mail (scripted malformed_box) 10 None "abc" false [])
     = Raised IndexError
  /\ skeleton (calls (imap_retrieve_mail (scripted malformed_box) 10 None
                        "abc" false []))
     = [CSleep 10; CSelect "INBOX"].
Proof. repeat split; vm_compute; reflexivity. Qed.

(** C4, amended. With a base delay d > 0, a run that returns NOT_FOUND has
    made exactly three rounds: it slept d, 4d and 9d
    seconds, each time before selecting the mailboxes of that round in
    their order, and made no other sleep or selection. *)
Theorem three_rounds_with_backoff :
  forall (S : Type) (server : imap S) (delay : Z)
         (imap_spambox : option string) (expected_token : string)
         (cleanup_flag : bool) (s : S),
    delay > 0 ->
    res (imap_retrieve_mail server delay imap_spambox expected_token
           cleanup_flag s)
    = Returned NOT_FOUND ->
    skeleton (calls (imap_retrieve_mail server delay imap_spambox
                       expected_token cleanup_flag s))
    = ([CSleep delay] ++ map CSelect (mailboxes imap_spambox)
       ++ [CSleep (4 * delay)] ++ map CSelect (mailboxes imap_spambox)
       ++ [CSleep (9 * delay)] ++ map CSelect (mailboxes imap_spambox))%list.
Proof.
  intros S server delay spam e c s Hd H.
  rewrite retrieve_flat in *.
  rewrite (run_plan_not_found _ _ _ _ _ _ H).
  rewrite (plan_positive_delay _ _ Hd).
  rewrite !map_app, !map_act_call_scans. reflexivity.
Qed.

Lemma three_rounds_with_backoff_witness :
  10 > 0
  /\ res (imap_retrieve_mail (scripted no_header_box) 10 (Some "Junk") "abc"
            true [])
     = Returned NOT_FOUND
  /\ skeleton (calls (imap_retrieve_mail (scripted no_header_box) 10
                        (Some "Junk") "abc" true []))
     = [CSleep 10; CSelect "Junk"; CSelect "INBOX";
        CSleep 40; CSelect "Junk"; CSelect "INBOX";
        CSleep 90; CSelect "Junk"; CSelect "INBOX"].
Proof.
  split; [lia|]. split; [vm_compute; reflexivity|].
  apply (three_rounds_with_backoff _ (scripted no_header_box) 10
           (Some "Junk") "abc" true []);
    [lia | vm_compute; reflexivity].
Defined.

(** C5. When a spam mailbox is configured, the list of mailboxes is the
    spam mailbox followed by INBOX.  In every run the mailboxes selected
    are, in order, an initial part of that list taken three times, so that
    within each round the spam mailbox is searched before INBOX and INBOX
    is the last of the round.  The spam mailbox is the first mailbox a run
    selects, unless the sleep before the first round raises; and a run that
    returns NOT_FOUND has selected the whole list three times. *)
Theorem spam_searched_before_inbox :
  forall (S : Type) (server : imap S) (delay : Z) (spambox : string)
         (expected_token : string) (cleanup_flag : bool) (s : S),
    truthy (Some spambox) = true ->
    let o := imap_retrieve_mail server delay (Some spambox) expected_token
               cleanup_flag s in
    mailboxes (Some spambox) = [spambox; "INBOX"]
    /\ last (mailboxes (Some spambox)) "" = "INBOX"
    /\ (exists later,
           (selected (calls o) ++ later)%list
           = [spambox; "INBOX"; spambox; "INBOX"; spambox; "INBOX"])
    /\ ((delay > 0 -> fst (sleep server delay s) = Returned tt) ->
        exists rest, selected (calls o) = spambox :: rest)
    /\ (res o = Returned NOT_FOUND ->
        selected (calls o)
        = [spambox; "INBOX"; spambox; "INBOX"; spambox; "INBOX"]).
Proof.
  intros S server delay spambox e c s Ht. cbv zeta.
  assert (Hm : mailboxes (Some spambox) = [spambox; "INBOX"]).
  { unfold mailboxes. rewrite Ht. reflexivity. }
  split; [exact Hm|]. split; [rewrite Hm; reflexivity|].
  rewrite retrieve_flat.
  split; [|split].
  - destruct (run_plan_selected server e c (plan delay (Some spambox))
                NOT_FOUND s) as [later Hl].
    exists later. rewrite Hl, scanned_plan, Hm. reflexivity.
  - intros Hsleep.
    destruct (run_first_scan server e c delay (Some spambox) s Hsleep)
      as (mb & more & rest & Hmb & Hsel).
    rewrite Hm in Hmb. injection Hmb as <- _. now exists rest.
  - intros H.
    rewrite (run_plan_not_found_selected server e c _ _ _ H).
    rewrite scanned_plan, Hm. reflexivity.
Qed.

Lemma spam_searched_before_inbox_witness :
  truthy (Some "Junk") = true
  /\ mailboxes (Some "Junk") = ["Junk"; "INBOX"]
  /\ (exists later,
         (selected (calls (imap_retrieve_mail (scripted inbox_two) 10
                             (Some "Junk") "abc" true [])) ++ later)%list
         = ["Junk"; "INBOX"; "Junk"; "INBOX"; "Junk"; "INBOX"])
  /\ (exists rest,
         selected (calls (imap_retrieve_mail (scripted inbox_two) 10
                            (Some "Junk") "abc" true []))
         = "Junk" :: rest)
  /\ selected (calls (imap_retrieve_mail (scripted no_header_box) 10
                        (Some "Junk") "abc" true []))
     = ["Junk"; "INBOX"; "Junk"; "INBOX"; "Junk"; "INBOX"].
Proof.
  split; [reflexivity|].
  destruct (spam_searched_before_inbox _ (scripted inbox_two) 10 "Junk" "abc"
              true [] eq_refl) as (Hm & _ & Hsel & Hfirst & _).
  destruct (spam_searched_before_inbox _ (scripted no_header_box) 10 "Junk"
              "abc" true [] eq_refl) as (_ & _ & _ & _ & Hall).
  split; [exact Hm|]. split; [exact Hsel|].
  split; [apply Hfirst; reflexivity|].
  apply Hall. vm_compute. reflexivity.
Defined.

(** ** C6 *)

(** C6, as stated, fails.  The value of the custom header of this message
    is the text abc X-Icinga-Test-Id: def, yet the scan for the token abc
    finds the message, and the scan for the value of the header does not.
    And a message that has no custom header at all, only a header of a
    longer name, is compared and found. *)
Lemma separator_in_value_matches_part :
  field_of HEADER_NAME
    (fields (mail_with "X-Icinga-Test-Id: abc X-Icinga-Test-Id: def"))
  = Some "abc X-Icinga-Test-Id: def"
  /\ res (imap_search_server (scripted doubled_box) "INBOX" "abc" false [])
     = Returned FOUND
  /\ res (imap_search_server (scripted doubled_box) "INBOX"
            "abc X-Icinga-Test-Id: def" false [])
     = Returned NOT_FOUND
  /\ field_of HEADER_NAME
       (fields (mail_with "X-Icinga-Test-Id-Old: X-Icinga-Test-Id: abc"))
     = None
  /\ res (imap_search_server (scripted shadow_box) "INBOX" "abc" false [])
     = Returned FOUND.
Proof. repeat split; vm_compute; reflexivity. Qed.

(** C6, amended. For every message of the loop, while nothing has been
    found.  A message number that is not UTF-8 raises before the fetch, and
    a fetched answer that cannot be read raises right after it.  Otherwise
    the token compared is the running token after the loop over the lines
    of the header block: the token left by the messages before when no line
    starts with the header name, and otherwise the stripped text between
    the first occurrence of the separator and the next one (or the end of
    the line) on the last line that starts with the header name.  The
    comparison is equality with the expected token.  On equality the loop
    ends right after the fetch, with FOUND if the mailbox is INBOX and
    FOUND_IN_SPAM otherwise, whatever messages follow: none of them is
    fetched.  Otherwise the message does not match and nothing is found. *)
Theorem token_match_is_exact :
  forall (S : Type) (server : imap S) (mailbox expected_token : string)
         (cleanup_flag : bool) (num : string) (rest : list string)
         (token : string) (s : S),
    if Py.valid_utf8 num then
      match read_token (snd (fst (fetch server num s))) token with
      | Returned t =>
          (exists email,
              mail_of (snd (fst (fetch server num s))) = Returned email
              /\ ((no_name_line email = true /\ t = token)
                  \/ exists l1 line l2 before value after,
                       header_lines email = (l1 ++ line :: l2)%list
                       /\ Py.startswith line HEADER_NAME = true
                       /\ forallb no_name l2 = true
                       /\ line = before ++ HEADER_SEP ++ value ++ after
                       /\ none_begins HEADER_SEP before
                            (HEADER_SEP ++ value ++ after) = true
                       /\ none_begins HEADER_SEP value after = true
                       /\ (after = "" \/ prefix HEADER_SEP after = true)
                       /\ t = Py.strip value))
          /\ (t = expected_token ->
              scan_loop server mailbox expected_token cleanup_flag
                        (num :: rest) NOT_FOUND token s
              = Out (Returned (Break (if (mailbox =? "INBOX")%string
                                      then FOUND else FOUND_IN_SPAM)
                                     expected_token))
                    (snd (fetch server num s)) [CFetch num])
          /\ (t <> expected_token ->
              res (loop_body server mailbox expected_token cleanup_flag num
                             NOT_FOUND token s)
              = Returned (Continue NOT_FOUND t))
      | Raised e =>
          scan_loop server mailbox expected_token cleanup_flag (num :: rest)
                    NOT_FOUND token s
          = Out (Raised e) (snd (fetch server num s)) [CFetch num]
      end
    else
      scan_loop server mailbox expected_token cleanup_flag (num :: rest)
                NOT_FOUND token s
      = Out (Raised UnicodeDecodeError) s [].
Proof.
  intros S server mailbox e c num rest token s.
  destruct (Py.valid_utf8 num) eqn:Hv;
    [|rewrite scan_loop_step, Hv; reflexivity].
  destruct (read_token (snd (fst (fetch server num s))) token) as [t|ex] eqn:Ht.
  - split; [|split].
    + destruct (read_token_returned _ _ _ Ht) as (email & Hm & Hl).
      exists email. split; [exact Hm|].
      exact (header_loop_last _ _ _ Hl).
    + intros Hcmp. rewrite scan_loop_step, Hv.
      destruct (fetch server num s) as [answer s1]. cbn [fst snd] in *.
      rewrite Ht, Hcmp, String.eqb_refl. reflexivity.
    + intros Hcmp. rewrite loop_body_not_found, Hv.
      destruct (fetch server num s) as [answer s1]. cbn [fst snd] in *.
      rewrite Ht. apply String.eqb_neq in Hcmp. rewrite Hcmp. reflexivity.
  - rewrite scan_loop_step, Hv.
    destruct (fetch server num s) as [answer s1]. cbn [fst snd] in *.
    rewrite Ht. reflexivity.
Qed.

Lemma token_match_is_exact_witness :
  read_token (snd (fst (fetch (scripted padded_box) "1" []))) "" = Returned "abc"
  /\ scan_loop (scripted padded_box) "Junk" "abc" true ["1"; "2"]
               NOT_FOUND "" []
     = Out (Returned (Break FOUND_IN_SPAM "abc")) [] [CFetch "1"]
  /\ scan_loop (scripted padded_box) "INBOX" "abc" true ["1"; "2"]
               NOT_FOUND "" []
     = Out (Returned (Break FOUND "abc")) [] [CFetch "1"]
  /\ res (loop_body (scripted doubled_box) "INBOX"
                    "abc X-Icinga-Test-Id: def" true "1" NOT_FOUND "" [])
     = Returned (Continue NOT_FOUND "abc").
Proof.
  assert (Hr : read_token (snd (fst (fetch (scripted padded_box) "1" []))) ""
               = Returned "abc") by (vm_compute; reflexivity).
  assert (Hd : read_token (snd (fst (fetch (scripted doubled_box) "1" []))) ""
               = Returned "abc") by (vm_compute; reflexivity).
  assert (Hv : Py.valid_utf8 "1" = true) by reflexivity.
  split; [exact Hr|]. split; [|split].
  - pose proof (token_match_is_exact _ (scripted padded_box) "Junk" "abc"
                  true "1" ["2"] "" []) as H.
    rewrite Hv, Hr in H. exact (proj1 (proj2 H) eq_refl).
  - pose proof (token_match_is_exact _ (scripted padded_box) "INBOX" "abc"
                  true "1" ["2"] "" []) as H.
    rewrite Hv, Hr in H. exact (proj1 (proj2 H) eq_refl).
  - pose proof (token_match_is_exact _ (scripted doubled_box) "INBOX"
                  "abc X-Icinga-Test-Id: def" true "1" [] "" []) as H.
    rewrite Hv, Hd in H. apply (proj2 (proj2 H)). discriminate.
Defined.

(** ** C7 *)

(** C7, as stated, fails.  The first message has no custom header, only a
    header of a longer name whose value quotes the custom header; the scan
    for the token abc, which is not empty, finds it: visiting the message
    turns the state from NOT_FOUND to FOUND.  The second message has no
    custom header either, and visiting it raises. *)
Lemma message_without_header_changes_state :
  fields (mail_with "X-Icinga-Test-Id-Old: X-Icinga-Test-Id: abc")
  = [("From", "a@example.org");
     ("X-Icinga-Test-Id-Old", "X-Icinga-Test-Id: abc");
     ("Subject", "Mail test")]
  /\ field_of HEADER_NAME
       (fields (mail_with "X-Icinga-Test-Id-Old: X-Icinga-Test-Id: abc"))
     = None
  /\ res (loop_body (scripted shadow_box) "INBOX" "abc" false "1"
                    NOT_FOUND "" [])
     = Returned (Break FOUND "abc")
  /\ res (imap_search_server (scripted shadow_box) "INBOX" "abc" false [])
     = Returned FOUND
  /\ field_of HEADER_NAME (fields (mail_with "X-Icinga-Test-Id-Old: abc"))
     = None
  /\ res (loop_body (scripted longer_name_box) "INBOX" "abc" false "1"
                    NOT_FOUND "" [])
     = Raised IndexError.
Proof. repeat split; vm_compute; reflexivity. Qed.

(** C7, amended. For a non-empty expected token, wherever the loop of a
    scan stands after the messages before, visiting a message that can be
    read and whose header block has no line starting with the sixteen
    characters of the header name leaves the loop variables as they were:
    nothing found, and the running token of the previous messages kept. *)
Theorem headerless_message_keeps_state :
  forall (S : Type) (server : imap S) (mailbox expected_token : string)
         (cleanup_flag : bool) (before : list string) (num : string) (s : S)
         (token_found : MailFound) (token : string) (email : Email),
    (expected_token =? "")%string = false ->
    res (scan_loop server mailbox expected_token cleanup_flag before
                   NOT_FOUND "" s)
    = Returned (Continue token_found token) ->
    Py.valid_utf8 num = true ->
    mail_of
      (snd (fst (fetch server num
                   (srv (scan_loop server mailbox expected_token cleanup_flag
                                   before NOT_FOUND "" s)))))
    = Returned email ->
    no_name_line email = true ->
    res (loop_body server mailbox expected_token cleanup_flag num
                   token_found token
                   (srv (scan_loop server mailbox expected_token cleanup_flag
                                   before NOT_FOUND "" s)))
    = Returned (Continue token_found token).
Proof.
  intros S server mailbox e c before num s tf tok email He Hloop Hv Hm Hlack.
  assert (Hne : "" <> e).
  { apply String.eqb_neq in He. congruence. }
  destruct (scan_loop_continue server mailbox e c before "" s tf tok Hne Hloop)
    as [-> Htok].
  rewrite loop_body_not_found, Hv.
  destruct (fetch server num _) as [answer s1]. cbn [fst snd] in Hm.
  rewrite (read_token_mail _ _ tok Hm).
  unfold no_name_line in Hlack.
  rewrite (header_loop_absent _ tok Hlack).
  apply String.eqb_neq in Htok. rewrite Htok. reflexivity.
Qed.

Lemma headerless_message_keeps_state_witness :
  ("abc" =? "")%string = false
  /\ res (scan_loop (scripted stale_then_plain) "INBOX" "abc" true ["1"]
                    NOT_FOUND "" [])
     = Returned (Continue NOT_FOUND "old-token")
  /\ res (loop_body (scripted stale_then_plain) "INBOX" "abc" true "2"
                    NOT_FOUND "old-token"
                    (srv (scan_loop (scripted stale_then_plain) "INBOX" "abc"
                                    true ["1"] NOT_FOUND "" [])))
     = Returned (Continue NOT_FOUND "old-token").
Proof.
  split; [reflexivity|]. split; [vm_compute; reflexivity|].
  apply (headerless_message_keeps_state _ (scripted stale_then_plain)
           "INBOX" "abc" true ["1"] "2" [] NOT_FOUND "old-token"
           {| data := plain_mail;
              header := "From: a@example.org" ++ CRLF ++ "Subject: hello" |});
    vm_compute; reflexivity.
Defined.

(** ** C8 *)

(** C8. The final status decides the output and the exit code: FOUND prints
    OK and exits 0; FOUND_IN_SPAM prints the warning only in debug mode and
    exits 1; NOT_FOUND prints the error line and exits 2; UNDEFINED prints
    the undefined line and exits 3.  The mapping makes no call on the
    session: [main] leaves the server and the calls as [imap_retrieve_mail]
    left them. *)
Theorem final_status_mapping :
  (forall debug_flag,
      final_status debug_flag FOUND = (["OK"], 0)
      /\ final_status debug_flag FOUND_IN_SPAM
         = ((if debug_flag
             then ["WARNING - Message found in Spam folder"] else []), 1)
      /\ final_status debug_flag NOT_FOUND = (["ERROR - Message not found"], 2)
      /\ final_status debug_flag UNDEFINED
         = (["UNDEFINED - Undefined state"], 3))
  /\ (forall (S : Type) (server : imap S) debug_flag delay imap_spam _uuid
             imap_cleanup (s : S),
         let o := imap_retrieve_mail server delay imap_spam _uuid
                                     imap_cleanup s in
         main server debug_flag delay imap_spam _uuid imap_cleanup s
         = Out (match res o with
                | Returned status => Returned (final_status debug_flag status)
                | Raised e => Raised e
                end) (srv o) (calls o)).
Proof.
  split.
  - intros debug_flag. repeat split.
  - intros S server debug_flag delay imap_spam _uuid imap_cleanup s o.
    unfold main, bind. fold o.
    destruct (res o); simpl; [now rewrite app_nil_r | reflexivity].
Qed.

(** ** C9 *)

(** C9, as stated, fails: a scan that raises leaves the scheduler without
    any logout. *)
Lemma raising_scan_skips_logout :
  imap_retrieve_mail (scripted malformed_box) 10 None "abc" false []
  = Out (Raised IndexError) []
        [CSleep 10; CSelect "INBOX"; CSearch; CFetch "1"]
  /\ count_logout
       (calls (imap_retrieve_mail (scripted malformed_box) 10 None "abc"
                 false []))
     = 0%nat.
Proof. split; vm_compute; reflexivity. Qed.

(** C9, amended. Whenever the scheduler returns a status, on the early
    return as at the end of the third round, it has logged out exactly
    once, and the logout is its last call.  When a scan raises, the error
    leaves the scheduler and no logout is made. *)
Theorem logout_once_on_return :
  forall (S : Type) (server : imap S) (delay : Z)
         (imap_spambox : option string) (expected_token : string)
         (cleanup_flag : bool) (s : S),
    let o := imap_retrieve_mail server delay imap_spambox expected_token
                                cleanup_flag s in
    match res o with
    | Returned _ =>
        count_logout (calls o) = 1%nat
        /\ exists before, calls o = (before ++ [CLogout])%list
    | Raised _ => count_logout (calls o) = 0%nat
    end.
Proof.
  intros S server delay spam e c s. cbv zeta. rewrite retrieve_flat.
  exact (run_plan_logout server e c (plan delay spam) NOT_FOUND s).
Qed.

(** ** C10 *)

(** C10. A fetched message whose header block has a line that starts with
    the header name and does not hold the separator makes the scan raise
    IndexError at the fetch of that message: the split has one element and
    element 1 is read.  The message is not passed over as non-matching,
    and no store, expunge or close follows. *)
Theorem malformed_header_raises :
  forall (S : Type) (server : imap S) (mailbox expected_token : string)
         (cleanup_flag : bool) (num : string) (rest : list string)
         (token : string) (s : S) (email : Email) (line : string),
    Py.valid_utf8 num = true ->
    mail_of (snd (fst (fetch server num s))) = Returned email ->
    In line (header_lines email) ->
    Py.startswith line HEADER_NAME = true ->
    Py.contains HEADER_SEP line = false ->
    List.length (Py.split line HEADER_SEP) = 1%nat
    /\ scan_loop server mailbox expected_token cleanup_flag (num :: rest)
                 NOT_FOUND token s
       = Out (Raised IndexError) (snd (fetch server num s)) [CFetch num].
Proof.
  intros S server mailbox e c num rest token s email line Hv Hm Hin Hs Hc.
  split; [now rewrite (split_absent _ _ Hc)|].
  rewrite scan_loop_step, Hv.
  destruct (fetch server num s) as [answer s1]. cbn [fst snd] in *.
  rewrite (read_token_mail _ _ token Hm).
  rewrite (header_loop_malformed _ line Hin Hs Hc token). reflexivity.
Qed.

Lemma malformed_header_raises_witness :
  Py.startswith "X-Icinga-Test-Id:abc" HEADER_NAME = true
  /\ Py.contains HEADER_SEP "X-Icinga-Test-Id:abc" = false
  /\ scan_loop (scripted malformed_box) "INBOX" "abc" true ["1"]
               NOT_FOUND "" []
     = Out (Raised IndexError) [] [CFetch "1"]
  /\ res (imap_search_server (scripted malformed_box) "INBOX" "abc" true [])
     = Raised IndexError.
Proof.
  split; [reflexivity|]. split; [reflexivity|].
  split; [|vm_compute; reflexivity].
  refine (proj2 (malformed_header_raises _ (scripted malformed_box) "INBOX"
                   "abc" true "1" [] "" []
                   {| data := mail_with "X-Icinga-Test-Id:abc";
                      header := "From: a@example.org" ++ CRLF
                                ++ "X-Icinga-Test-Id:abc" ++ CRLF
                                ++ "Subject: Mail test" |}
                   "X-Icinga-Test-Id:abc" eq_refl _ _ eq_refl eq_refl)).
  - vm_compute. reflexivity.
  - vm_compute. right. left. reflexivity.
Defined.

(** * Further properties of the searcher *)

(** X1. The calls of a scan that runs to its end.  When nothing matches,
    every message the search listed is fetched, in the listed order, and
    with cleanup flagged right after its fetch; then come expunge (with
    cleanup) and close.  When a message matches, this holds for the messages
    listed before it; the matching message is fetched, and the messages
    listed after it are neither fetched nor flagged. *)
Theorem completed_scan_calls :
  forall (S : Type) (server : imap S) (mailbox expected_token : string)
         (cleanup_flag : bool) (s : S),
    let o := imap_search_server server mailbox expected_token cleanup_flag s in
    let answer := fst (search server (snd (select server mailbox s))) in
    let ending := if cleanup_flag then [CExpunge; CClose] else [CClose] in
    match res o with
    | Returned UNDEFINED | Raised _ => True
    | Returned NOT_FOUND =>
        exists d0 more nums,
          snd answer = d0 :: more /\ split_of d0 = Returned nums
          /\ calls o = ([CSelect mailbox; CSearch] ++ visits cleanup_flag nums
                        ++ ending)%list
    | Returned _ =>
        exists d0 more before num after,
          snd answer = d0 :: more
          /\ split_of d0 = Returned (before ++ num :: after)%list
          /\ calls o = ([CSelect mailbox; CSearch]
                        ++ visits cleanup_flag before ++ [CFetch num]
                        ++ ending)%list
    end.
Proof.
  intros S server mailbox e c s. cbv zeta. rewrite scan_unfold.
  destruct (select server mailbox s) as [sel s1]. cbn [fst snd].
  destruct (item0 (snd sel)) as [x|ex]; [|exact I].
  destruct (int_of x) as [n|ex]; [|exact I].
  destruct (search server s1) as [sea s2]. cbn [fst snd].
  destruct (fst sea =? "OK")%string; [|exact I].
  destruct (snd sea) as [|d0 more] eqn:Ed; [exact I|]. cbn [item0].
  destruct (split_of d0) as [nums|ex] eqn:En; [|exact I].
  pose proof (scan_loop_calls server mailbox e c nums "" s2) as Hc.
  pose proof (scan_loop_result server mailbox e c nums "" s2) as Hr.
  cbv zeta.
  destruct (res (scan_loop server mailbox e c nums NOT_FOUND "" s2))
    as [[tf t|tf t]|ex]; cbn [res calls found_of]; [| |exact I].
  - subst tf. exists d0, more, nums.
    split; [reflexivity|]. split; [exact En|]. rewrite Hc. reflexivity.
  - destruct Hr as [-> _]. destruct Hc as (before & num & after & -> & ->).
    assert (Hgoal : exists d1 more1 before1 num1 after1,
      d0 :: more = d1 :: more1
      /\ split_of d1 = Returned (before1 ++ num1 :: after1)%list
      /\ (CSelect mailbox :: CSearch
          :: (visits c before ++ [CFetch num])
             ++ (if c then [CExpunge; CClose] else [CClose]))%list
         = ([CSelect mailbox; CSearch] ++ visits c before1 ++ [CFetch num1]
            ++ (if c then [CExpunge; CClose] else [CClose]))%list).
    { exists d0, more, before, num, after.
      split; [reflexivity|]. split; [exact En|].
      cbn [app]. now rewrite <- app_assoc. }
    unfold found_in. destruct (mailbox =? "INBOX")%string; exact Hgoal.
Qed.

(** X2. Expunge and close belong to the end of a scan that returns FOUND,
    FOUND_IN_SPAM or NOT_FOUND: they are its last calls and occur nowhere
    before.  A scan that returns UNDEFINED or raises makes neither call: the
    mailbox stays selected and the flags set so far are not expunged. *)
Theorem scan_ends_with_close_or_without :
  forall (S : Type) (server : imap S) (mailbox expected_token : string)
         (cleanup_flag : bool) (s : S),
    let o := imap_search_server server mailbox expected_token cleanup_flag s in
    match res o with
    | Returned UNDEFINED | Raised _ => existsb is_end_call (calls o) = false
    | Returned _ =>
        exists before,
          calls o = (before ++ if cleanup_flag
                               then [CExpunge; CClose] else [CClose])%list
          /\ existsb is_end_call before = false
    end.
Proof.
  intros S server mailbox e c s. cbv zeta. rewrite scan_unfold.
  destruct (select server mailbox s) as [sel s1].
  destruct (item0 (snd sel)) as [x|ex]; [|reflexivity].
  destruct (int_of x) as [n|ex]; [|reflexivity].
  destruct (search server s1) as [sea s2].
  destruct (fst sea =? "OK")%string; [|reflexivity].
  destruct (item0 (snd sea)) as [d0|ex]; [|reflexivity].
  destruct (split_of d0) as [nums|ex]; [|reflexivity].
  pose proof (scan_loop_visit_calls server mailbox e c nums NOT_FOUND "" s2)
    as Hv.
  pose proof (scan_loop_result server mailbox e c nums "" s2) as Hr.
  cbv zeta.
  destruct (res (scan_loop server mailbox e c nums NOT_FOUND "" s2))
    as [[tf t|tf t]|ex]; cbn [res calls found_of].
  - subst tf. eexists (CSelect mailbox :: CSearch :: _). split; [reflexivity|].
    cbn [existsb is_end_call orb]. now apply existsb_end_visits.
  - destruct Hr as [-> _].
    assert (Hgoal : exists before,
      (CSelect mailbox :: CSearch
       :: calls (scan_loop server mailbox e c nums NOT_FOUND "" s2)
          ++ (if c then [CExpunge; CClose] else [CClose]))%list
      = (before ++ (if c then [CExpunge; CClose] else [CClose]))%list
      /\ existsb is_end_call before = false).
    { eexists (CSelect mailbox :: CSearch :: _). split; [reflexivity|].
      cbn [existsb is_end_call orb]. now apply existsb_end_visits. }
    unfold found_in. destruct (mailbox =? "INBOX")%string; exact Hgoal.
  - cbn [existsb is_end_call orb]. now apply existsb_end_visits.
Qed.

(** X3. A scan returns UNDEFINED exactly when the message count of the
    select answer converts to an integer and the search answers a status
    other than OK; no failure of a fetch and no content of a message gives
    UNDEFINED. *)
Theorem undefined_iff_search_refused :
  forall (S : Type) (server : imap S) (mailbox expected_token : string)
         (cleanup_flag : bool) (s : S),
    res (imap_search_server server mailbox expected_token cleanup_flag s)
    = Returned UNDEFINED
    <-> count_parses (fst (select server mailbox s)) = true
        /\ (fst (fst (search server (snd (select server mailbox s))))
            =? "OK")%string = false.
Proof.
  intros S server mailbox e c s. split.
  - intros H. pose proof (scan_result server mailbox e c s) as Hr.
    rewrite H in Hr. exact Hr.
  - intros [Hp Hs]. rewrite scan_unfold. unfold count_parses in Hp.
    destruct (select server mailbox s) as [sel s1]. cbn [fst snd] in *.
    destruct (item0 (snd sel)) as [x|ex]; [|discriminate].
    destruct (int_of x) as [n|ex]; [|discriminate].
    destruct (search server s1) as [sea s2]. cbn [fst snd] in *.
    rewrite Hs. reflexivity.
Qed.

(** * Further properties of the header parser *)

(** X4. The header block of a fetched message is the text before the first
    occurrence of CR LF CR LF: the decoded message is the header block
    followed by a rest that is empty or begins with CR LF CR LF, and no
    CR LF CR LF begins inside the header block.  Nothing after that point is
    parsed.  The [Email] object is made only from bytes that are UTF-8: on
    other bytes its making raises UnicodeDecodeError, and on an integer
    AttributeError. *)
Theorem header_is_text_before_first_blank_line :
  forall _data : field,
    match Email_init _data with
    | Returned email =>
        _data = FBytes (data email)
        /\ Py.valid_utf8 (data email) = true
        /\ exists rest,
             data email = header email ++ rest
             /\ none_begins CRLF2 (header email) rest = true
             /\ (rest = "" \/ prefix CRLF2 rest = true)
    | Raised e =>
        match _data with
        | FInt _ => e = AttributeError
        | FBytes b => Py.valid_utf8 b = false /\ e = UnicodeDecodeError
        end
    end.
Proof.
  intros [d|n]; [|reflexivity].
  cbn [Email_init]. unfold decode.
  destruct (Py.valid_utf8 d) eqn:Hv; cbn [and_then data header];
    [|now split].
  split; [reflexivity|]. split; [exact Hv|]. unfold Py.split.
  destruct (split_go_first "013" (String "010" CRLF) d "")
    as (p & rest & Hs & Hn & Hcase).
  change (String "013" (String "010" CRLF)) with CRLF2 in *.
  assert (Hh : Py.join CRLF2 (firstn 1 (Py.split_go CRLF2 0 "" d)) = p).
  { destruct Hcase as [[_ ->]|(r & _ & ->)]; reflexivity. }
  rewrite Hh. exists rest. split; [exact Hs|]. split; [exact Hn|].
  destruct Hcase as [[Hr _]|(r & Hr & _)]; [now left|].
  right. rewrite Hr. apply prefix_append.
Qed.

(** X5. The token a header line sets.  On a line that holds the separator
    (the header name, a colon and one space), the value read by
    [line.split(sep)[1]] is the text between the first occurrence of the
    separator and the next one, or the end of the line; what stands before
    the first occurrence is not looked at.  The token is that value with
    surrounding whitespace stripped. *)
Theorem token_is_text_between_separators :
  forall line : string,
    Py.contains HEADER_SEP line = true ->
    exists before value rest,
      line = before ++ HEADER_SEP ++ value ++ rest
      /\ none_begins HEADER_SEP before (HEADER_SEP ++ value ++ rest) = true
      /\ none_begins HEADER_SEP value rest = true
      /\ (rest = "" \/ prefix HEADER_SEP rest = true)
      /\ item1 (Py.split line HEADER_SEP) = Returned value
      /\ forall token,
           header_loop [line] token
           = Returned (if Py.startswith line HEADER_NAME
                       then Py.strip value else token).
Proof.
  intros line H.
  destruct (split_present _ _ _ H)
    as (b & v & r & tl & Hl & Hb & Hv & Hr & Hsp).
  fold HEADER_SEP in *.
  exists b, v, r. repeat (split; [assumption|]).
  split; [now rewrite Hsp|].
  intros token. cbn [header_loop]. rewrite Hsp. cbn [item1 nth_error].
  now destruct (Py.startswith line HEADER_NAME).
Qed.

Lemma token_is_text_between_separators_witness :
  Py.contains HEADER_SEP
    "X-Icinga-Test-Id-Old: X-Icinga-Test-Id: abc X-Icinga-Test-Id: def" = true
  /\ exists before value rest,
       "X-Icinga-Test-Id-Old: X-Icinga-Test-Id: abc X-Icinga-Test-Id: def"
       = before ++ HEADER_SEP ++ value ++ rest
       /\ none_begins HEADER_SEP before (HEADER_SEP ++ value ++ rest) = true
       /\ none_begins HEADER_SEP value rest = true
       /\ (rest = "" \/ prefix HEADER_SEP rest = true)
       /\ item1 (Py.split
                   "X-Icinga-Test-Id-Old: X-Icinga-Test-Id: abc X-Icinga-Test-Id: def"
                   HEADER_SEP)
          = Returned value
       /\ forall token,
            header_loop
              ["X-Icinga-Test-Id-Old: X-Icinga-Test-Id: abc X-Icinga-Test-Id: def"]
              token
            = Returned
                (if Py.startswith
                      "X-Icinga-Test-Id-Old: X-Icinga-Test-Id: abc X-Icinga-Test-Id: def"
                      HEADER_NAME
                 then Py.strip value else token).
Proof.
  split; [reflexivity|].
  apply (token_is_text_between_separators
           "X-Icinga-Test-Id-Old: X-Icinga-Test-Id: abc X-Icinga-Test-Id: def").
  reflexivity.
Defined.

(** * Further properties of the searcher: errors and correctness *)



(** X7. What a scan answers.  On a session whose select answer gives a
    message count, whose search is accepted and lists the messages nums, and
    whose listed messages can all be read (each has a fixed token, or sets
    none), the scan with a non-empty expected token returns a match exactly
    when one of the listed messages carries the expected token: FOUND in
    INBOX, FOUND_IN_SPAM in another mailbox, and NOT_FOUND when no listed
    message carries it.  A token left over from an earlier message never
    makes a later message match. *)
Theorem scan_finds_token_iff_listed :
  forall (S : Type) (server : imap S) (mailbox expected_token : string)
         (cleanup_flag : bool) (s : S) (tok_of : string -> option string)
         (d0 : option string) (more : list (option string))
         (nums : list string),
    expected_token <> "" ->
    count_parses (fst (select server mailbox s)) = true ->
    fst (search server (snd (select server mailbox s))) = ("OK", d0 :: more) ->
    split_of d0 = Returned nums ->
    (forall n s' t,
        In n nums ->
        Py.valid_utf8 n = true
        /\ read_token (snd (fst (fetch server n s'))) t
           = Returned (match tok_of n with Some v => v | None => t end)) ->
    res (imap_search_server server mailbox expected_token cleanup_flag s)
    = Returned (if existsb (carries tok_of expected_token) nums
                then found_in mailbox else NOT_FOUND).
Proof.
  intros S server mailbox ex c s tok_of d0 more nums Hne Hp Hs Hn H.
  rewrite scan_unfold. unfold count_parses in Hp.
  destruct (select server mailbox s) as [sel s1]. cbn [fst snd] in *.
  destruct (item0 (snd sel)) as [x|]; [|discriminate].
  destruct (int_of x) as [n|]; [|discriminate].
  destruct (search server s1) as [sea s2]. cbn [fst] in Hs. subst sea.
  cbn [fst snd item0]. rewrite Hn.
  change ("OK" =? "OK")%string with true. cbv iota zeta.
  assert (Hne' : "" <> ex) by (intros E; now apply Hne).
  destruct (scan_loop_stable server mailbox ex c tok_of nums H "" s2 Hne')
    as (r & Hr & Hf).
  rewrite Hr. cbn [res]. now rewrite Hf.
Qed.

Lemma scan_finds_token_iff_listed_witness :
  res (imap_search_server (scripted inbox_two) "INBOX" "abc" true [])
  = Returned FOUND
  /\ res (imap_search_server (scripted inbox_two) "Junk" "xyz" true [])
     = Returned NOT_FOUND.
Proof.
  split.
  - apply (scan_finds_token_iff_listed _ (scripted inbox_two) "INBOX" "abc"
             true [] inbox_two_tokens (Some "1 2") [] ["1"; "2"]);
      try reflexivity; [discriminate|].
    intros n s' t [<-|[<-|[]]]; split; reflexivity.
  - apply (scan_finds_token_iff_listed _ (scripted inbox_two) "Junk" "xyz"
             true [] inbox_two_tokens (Some "1 2") [] ["1"; "2"]);
      try reflexivity; [discriminate|].
    intros n s' t [<-|[<-|[]]]; split; reflexivity.
Defined.

(** * Further properties of the scheduler *)

(** X8. With cleanup disabled, the whole run, through all rounds and
    mailboxes, never stores a flag and never expunges: the only calls that
    change a mailbox are absent from its trace. *)
Theorem no_cleanup_run_never_modifies :
  forall (S : Type) (server : imap S) (debug_flag : bool) (delay : Z)
         (imap_spam : option string) (_uuid : string) (s : S),
    existsb is_cleanup_call
      (calls (main server debug_flag delay imap_spam _uuid false s)) = false.
Proof.
  intros S server dbg delay spam uuid s.
  destruct (main_unfold server dbg delay spam uuid false s) as [_ ->].
  rewrite retrieve_flat. now apply run_plan_no_cleanup.
Qed.

(** X9. The sleeps of a run.  With a delay that is zero or negative the run
    never sleeps.  With a positive delay d the first call of every run,
    however it ends, is the sleep of d seconds, before any mailbox is
    selected, and the durations it sleeps are an initial part of d, 4d,
    9d. *)
Theorem sleeps_follow_backoff :
  forall (S : Type) (server : imap S) (delay : Z)
         (imap_spambox : option string) (expected_token : string)
         (cleanup_flag : bool) (s : S),
    let o := imap_retrieve_mail server delay imap_spambox expected_token
               cleanup_flag s in
    if delay >? 0
    then exists rest more later,
           calls o = CSleep delay :: rest
           /\ sleeps (calls o) = delay :: more
           /\ (more ++ later)%list = [4 * delay; 9 * delay]
    else sleeps (calls o) = [].
Proof.
  intros S server delay spam e c s. cbv zeta. rewrite retrieve_flat.
  destruct (run_plan_sleeps server e c (plan delay spam) NOT_FOUND s)
    as [later Hl].
  destruct (plan_head delay spam) as [rest Hp].
  destruct (Z.gtb_spec delay 0) as [Hd|Hd].
  - rewrite slept_plan_positive in Hl by lia.
    rewrite Hp in *. cbn [app] in *.
    rewrite run_plan_sleep in *.
    destruct (fst (sleep server delay s)) as [u|ex];
      unfold prepend in *; cbn [calls sleeps app] in *;
      injection Hl as Hl; eexists; eexists; exists later;
      (split; [reflexivity|]); (split; [reflexivity | exact Hl]).
  - rewrite slept_plan_not_positive in Hl by exact Hd.
    now apply app_eq_nil in Hl.
Qed.

(** X10. Without a spam mailbox, be the option absent or the empty string,
    INBOX is the only mailbox a run ever selects: once, twice or three
    times, provided the sleep before the first round returns. *)
Theorem without_spambox_only_inbox :
  forall (S : Type) (server : imap S) (delay : Z)
         (imap_spambox : option string) (expected_token : string)
         (cleanup_flag : bool) (s : S),
    truthy imap_spambox = false ->
    (delay > 0 -> fst (sleep server delay s) = Returned tt) ->
    let sel := selected (calls (imap_retrieve_mail server delay imap_spambox
                                  expected_token cleanup_flag s)) in
    sel = ["INBOX"] \/ sel = ["INBOX"; "INBOX"]
    \/ sel = ["INBOX"; "INBOX"; "INBOX"].
Proof.
  intros S server delay spam e c s Ht Hsleep. cbv zeta. rewrite retrieve_flat.
  assert (Hm : mailboxes spam = ["INBOX"])
    by (unfold mailboxes; now rewrite Ht).
  destruct (run_plan_selected server e c (plan delay spam) NOT_FOUND s)
    as [later Hl].
  rewrite scanned_plan, Hm in Hl. cbn [app] in Hl.
  destruct (run_first_scan server e c delay spam s Hsleep)
    as (mb & more & rest & Hmb & Hf).
  rewrite Hm in Hmb. injection Hmb as <- _. rewrite Hf in *.
  destruct rest as [|b [|b' [|b'' rest]]]; simpl in Hl.
  - now left.
  - injection Hl as <- _. right. now left.
  - injection Hl as <- <- _. right. now right.
  - injection Hl as _ _ Hl. discriminate.
Qed.

Lemma without_spambox_only_inbox_witness :
  truthy (Some "") = false
  /\ (selected (calls (imap_retrieve_mail (scripted no_header_box) 10
                         (Some "") "abc" true []))
      = ["INBOX"]
      \/ selected (calls (imap_retrieve_mail (scripted no_header_box) 10
                            (Some "") "abc" true []))
         = ["INBOX"; "INBOX"]
      \/ selected (calls (imap_retrieve_mail (scripted no_header_box) 10
                            (Some "") "abc" true []))
         = ["INBOX"; "INBOX"; "INBOX"]).
Proof.
  split; [reflexivity|].
  apply (without_spambox_only_inbox _ (scripted no_header_box) 10 (Some "")
           "abc" true []); reflexivity.
Defined.

(** X11. The spam mailbox decides first.  When a spam mailbox is configured,
    the sleep before the first round returns, and the scan of the spam
    mailbox in the first round yields an outcome other than NOT_FOUND, the
    run returns that outcome and INBOX is never selected, whatever INBOX
    holds. *)
Theorem spam_outcome_preempts_inbox :
  forall (S : Type) (server : imap S) (delay : Z) (spambox : string)
         (expected_token : string) (cleanup_flag : bool) (s : S)
         (st : MailFound),
    truthy (Some spambox) = true ->
    (delay > 0 -> fst (sleep server delay s) = Returned tt) ->
    res (imap_search_server server spambox expected_token cleanup_flag
           (if delay >? 0 then snd (sleep server delay s) else s))
    = Returned st ->
    st <> NOT_FOUND ->
    let o := imap_retrieve_mail server delay (Some spambox) expected_token
               cleanup_flag s in
    res o = Returned st /\ selected (calls o) = [spambox].
Proof.
  intros S server delay spambox e c s st Ht Hsleep Hr Hne. cbv zeta.
  rewrite retrieve_flat.
  destruct (plan_head delay (Some spambox)) as [rest ->].
  assert (Hm : mailboxes (Some spambox) = [spambox; "INBOX"])
    by (unfold mailboxes; now rewrite Ht).
  rewrite Hm. cbn [map app].
  destruct (Z.gtb_spec delay 0) as [Hd|Hd]; cbn [app].
  - rewrite run_plan_sleep, Hsleep by lia. unfold prepend.
    rewrite run_plan_scan. cbv zeta. rewrite Hr.
    destruct st; [| | |now elim Hne]; cbn [res calls selected app];
      (split; [reflexivity|]); now rewrite selected_app, scan_selected.
  - rewrite run_plan_scan. cbv zeta. rewrite Hr.
    destruct st; [| | |now elim Hne]; cbn [res calls];
      (split; [reflexivity|]); now rewrite selected_app, scan_selected.
Qed.

Lemma spam_outcome_preempts_inbox_witness :
  res (imap_search_server (by_mailbox misfiled) "INBOX" "abc" false "")
  = Returned FOUND
  /\ res (imap_retrieve_mail (by_mailbox misfiled) 10 (Some "Junk") "abc"
            false "")
     = Returned FOUND_IN_SPAM
  /\ selected (calls (imap_retrieve_mail (by_mailbox misfiled) 10
                        (Some "Junk") "abc" false ""))
     = ["Junk"].
Proof.
  split; [vm_compute; reflexivity|].
  apply (spam_outcome_preempts_inbox _ (by_mailbox misfiled) 10 "Junk" "abc"
           false "" FOUND_IN_SPAM);
    [reflexivity | reflexivity | vm_compute; reflexivity | discriminate].
Defined.

(** X12. Where a match was found.  A run that returns FOUND selected INBOX
    last.  A run that returns FOUND_IN_SPAM was given a spam mailbox with a
    name that is not empty and not INBOX, and selected that mailbox last:
    without such a mailbox the outcome FOUND_IN_SPAM, and with it exit code
    1, cannot occur. *)
Theorem match_comes_from_last_mailbox :
  forall (S : Type) (server : imap S) (delay : Z)
         (imap_spambox : option string) (expected_token : string)
         (cleanup_flag : bool) (s : S),
    let o := imap_retrieve_mail server delay imap_spambox expected_token
               cleanup_flag s in
    match res o with
    | Returned FOUND =>
        exists before, selected (calls o) = (before ++ ["INBOX"])%list
    | Returned FOUND_IN_SPAM =>
        exists before spambox,
          imap_spambox = Some spambox
          /\ spambox <> "" /\ spambox <> "INBOX"
          /\ selected (calls o) = (before ++ [spambox])%list
    | _ => True
    end.
Proof.
  intros S server delay spam e c s. cbv zeta. rewrite retrieve_flat.
  pose proof (run_plan_stops server e c (plan delay spam) s) as H.
  destruct (res (run_plan server e c (plan delay spam) NOT_FOUND s))
    as [[| | |]|ex]; try exact I.
  - destruct (H FOUND eq_refl) as (mb & s' & before & Hin & Hr & Hsel);
      [discriminate|].
    pose proof (scan_result server mb e c s') as Hm. rewrite Hr in Hm.
    subst mb. now exists before.
  - destruct (H FOUND_IN_SPAM eq_refl) as (mb & s' & before & Hin & Hr & Hsel);
      [discriminate|].
    pose proof (scan_result server mb e c s') as Hm. rewrite Hr in Hm.
    rewrite scanned_plan in Hin.
    assert (Hin' : In mb (mailboxes spam)).
    { apply in_app_or in Hin as [Hin|Hin]; [exact Hin|].
      apply in_app_or in Hin as [Hin|Hin]; exact Hin. }
    destruct (in_mailboxes _ _ Hin') as [->|[Hs Hn]]; [now elim Hm|].
    exists before, mb. repeat split; assumption.
Qed.


